(** * Go_passphrase: entropy file, checksum and BIP-39 word mapping

    A shallow embedding of the Go program (main.go, and its later revision
    that adds the -i inspection mode) together with the properties its
    specification states.

    Conventions of the embedding
    - a Go [byte] is a [Z] in the range 0..255; a Go [int] is a 64-bit
      two's complement integer, a [Z] with the wrap-around written out;
    - a Go [string] is its sequence of bytes, a [list ascii];
    - a [[]bool] is a [list bool]; slice indices and lengths are [nat];
    - a run-time panic (index or slice bound out of range) is [None];
    - [log.Fatalf] ends the run with a [Fatal] outcome. *)

From Stdlib Require Import ZArith List Ascii String Lia Bool.
From stdpp Require Import base option list gmap strings.

Local Open Scope Z_scope.

(** A Go string, byte by byte. *)
Abbreviation gostring := (list ascii).

(** A string literal as a Go string. *)
Abbreviation lit s := (list_ascii_of_string s).

(* ===================================================================== *)
(** * Bit codec *)
(* ===================================================================== *)

Module Codec.

(** The values of Go's [byte]. *)
Definition is_byte (b : Z) : Prop := 0 <= b < 256.

(** Inner loop of [bytesToBits]:
    [for i := 7; i >= 0; i-- { bits = append(bits, ((by>>i)&1) == 1) }] *)
Definition byteBits (byt : Z) : list bool :=
  map (fun i => Z.land (Z.shiftr byt i) 1 =? 1) [7; 6; 5; 4; 3; 2; 1; 0].

(** [func bytesToBits(b []byte) []bool] *)
Definition bytesToBits (b : list Z) : list bool := flat_map byteBits b.

(** [out[i/8] |= 1 << (7 - uint(i%8))]: an index outside [out] panics. *)
Definition setBit (out : list Z) (i : nat) : option (list Z) :=
  x ← out !! (i / 8)%nat;
  Some (<[(i / 8)%nat := Z.lor x (Z.shiftl 1 (7 - Z.of_nat (i mod 8)) mod 256)]> out).

(** The [for i, b := range bits] loop of [bitsToBytes], from index [i] on. *)
Fixpoint bitsToBytes_loop (i : nat) (bits : list bool) (out : list Z)
  : option (list Z) :=
  match bits with
  | [] => Some out
  | b :: rest =>
      out' ← (if b : bool then setBit out i else Some out);
      bitsToBytes_loop (S i) rest out'
  end.

(** [func bitsToBytes(bits []bool) []byte] *)
Definition bitsToBytes (bits : list bool) : option (list Z) :=
  bitsToBytes_loop 0 bits (replicate ((length bits + 7) / 8)%nat 0).

(** Go's [int] on the 64-bit platforms: two's complement wrap-around. *)
Definition wrap64 (n : Z) : Z := (n + 2 ^ 63) mod 2 ^ 64 - 2 ^ 63.

(** [func bitsToInt(bits []bool) int]: [n <<= 1; if b { n |= 1 }]. *)
Definition bitsToInt (bits : list bool) : Z :=
  fold_left
    (fun n (b : bool) =>
       let n := wrap64 (Z.shiftl n 1) in if b then Z.lor n 1 else n)
    bits 0.

(** [s[lo:hi]]: panics unless [lo <= hi <= cap(s)].  Every slice the program
    cuts is cut from a slice whose capacity is its length, or well inside
    the length. *)
Definition slice {A} (s : list A) (lo hi : nat) : option (list A) :=
  if decide (lo ≤ hi ∧ hi ≤ length s)%nat
  then Some (take (hi - lo) (drop lo s)) else None.

End Codec.

Import Codec.

(* ===================================================================== *)
(** * crypto/sha256 *)
(* ===================================================================== *)

(** [sha256.Sum256] of Go's standard library, written out after FIPS 180-4
    on 32-bit words.  The digest is eight words, so [Sum256] returns 32
    bytes, as its Go type [[32]byte] says. *)
Module sha256.

Definition w32 (x : Z) : Z := x mod 2 ^ 32.

Definition rotr (n x : Z) : Z :=
  Z.lor (Z.shiftr x n) (w32 (Z.shiftl x (32 - n))).

Definition Ch (x y z : Z) : Z :=
  Z.lxor (Z.land x y) (Z.land (Z.lxor x 0xffffffff) z).

Definition Maj (x y z : Z) : Z :=
  Z.lxor (Z.lxor (Z.land x y) (Z.land x z)) (Z.land y z).

Definition bigSigma0 (x : Z) : Z :=
  Z.lxor (Z.lxor (rotr 2 x) (rotr 13 x)) (rotr 22 x).

Definition bigSigma1 (x : Z) : Z :=
  Z.lxor (Z.lxor (rotr 6 x) (rotr 11 x)) (rotr 25 x).

Definition smallSigma0 (x : Z) : Z :=
  Z.lxor (Z.lxor (rotr 7 x) (rotr 18 x)) (Z.shiftr x 3).

Definition smallSigma1 (x : Z) : Z :=
  Z.lxor (Z.lxor (rotr 17 x) (rotr 19 x)) (Z.shiftr x 10).

(** The integer [k]-th root of [x] below [2 ^ n], bit by bit. *)
Fixpoint iroot (k : Z) (n : nat) (r x : Z) : Z :=
  match n with
  | O => r
  | S n' =>
      let c := r + 2 ^ Z.of_nat n' in
      iroot k n' (if c ^ k <=? x then c else r) x
  end.

(** The first sixty-four primes. *)
Definition primes : list Z :=
  [ 2; 3; 5; 7; 11; 13; 17; 19; 23; 29; 31; 37; 41; 43; 47; 53;
    59; 61; 67; 71; 73; 79; 83; 89; 97; 101; 103; 107; 109; 113; 127; 131;
    137; 139; 149; 151; 157; 163; 167; 173; 179; 181; 191; 193; 197; 199;
    211; 223; 227; 229; 233; 239; 241; 251; 257; 263; 269; 271; 277; 281;
    283; 293; 307; 311 ].

(** The round constants: the first 32 bits of the fractional parts of the
    cube roots of the primes. *)
Definition K : list Z :=
  Eval vm_compute in
    map (fun p => w32 (iroot 3 36 0 (p * 2 ^ 96))) primes.

(** The running digest, [h[0]] to [h[7]]. *)
Record digest := Digest {
  h0 : Z; h1 : Z; h2 : Z; h3 : Z; h4 : Z; h5 : Z; h6 : Z; h7 : Z }.

(** The initial digest: the first 32 bits of the fractional parts of the
    square roots of the first eight primes. *)
Definition fracSqrt (p : Z) : Z := w32 (iroot 2 36 0 (p * 2 ^ 64)).

Definition init : digest :=
  Eval vm_compute in
    Digest (fracSqrt 2) (fracSqrt 3) (fracSqrt 5) (fracSqrt 7)
           (fracSqrt 11) (fracSqrt 13) (fracSqrt 17) (fracSqrt 19).

(** Big-endian 32-bit words of a block. *)
Fixpoint words (bs : list Z) : list Z :=
  match bs with
  | b0 :: b1 :: b2 :: b3 :: rest =>
      Z.lor (Z.lor (Z.shiftl b0 24) (Z.shiftl b1 16)) (Z.lor (Z.shiftl b2 8) b3)
      :: words rest
  | _ => []
  end.

(** Message schedule, kept newest word first: [n] more words after [w]. *)
Fixpoint schedule (n : nat) (w : list Z) : list Z :=
  match n with
  | O => w
  | S n' =>
      schedule n'
        (w32 (smallSigma1 (nth 1 w 0) + nth 6 w 0
              + smallSigma0 (nth 14 w 0) + nth 15 w 0) :: w)
  end.

(** One round on the working variables, with [kw = K[t] + W[t]]. *)
Definition round (v : digest) (kw : Z) : digest :=
  let t1 := h7 v + bigSigma1 (h4 v) + Ch (h4 v) (h5 v) (h6 v) + kw in
  let t2 := bigSigma0 (h0 v) + Maj (h0 v) (h1 v) (h2 v) in
  Digest (w32 (t1 + t2)) (h0 v) (h1 v) (h2 v)
         (w32 (h3 v + t1)) (h4 v) (h5 v) (h6 v).

(** The compression of one 64-byte block into the digest. *)
Definition block (d : digest) (bs : list Z) : digest :=
  let w := rev (schedule 48 (rev (words bs))) in
  let v := fold_left round (zip_with Z.add K w) d in
  Digest (w32 (h0 d + h0 v)) (w32 (h1 d + h1 v))
         (w32 (h2 d + h2 v)) (w32 (h3 d + h3 v))
         (w32 (h4 d + h4 v)) (w32 (h5 d + h5 v))
         (w32 (h6 d + h6 v)) (w32 (h7 d + h7 v)).

(** [n] successive blocks of [data]. *)
Fixpoint blocks (n : nat) (d : digest) (data : list Z) : digest :=
  match n with
  | O => d
  | S n' => blocks n' (block d (take 64 data)) (drop 64 data)
  end.

(** Big-endian bytes of a [width]-byte unsigned number. *)
Fixpoint bigEndian (width : nat) (x : Z) : list Z :=
  match width with
  | O => []
  | S w' => Z.shiftr x (8 * Z.of_nat w') mod 256 :: bigEndian w' x
  end.

(** Padding: a one bit, zeros, and the bit length on 64 bits. *)
Definition pad (msg : list Z) : list Z :=
  let len := Z.of_nat (length msg) in
  msg ++ 0x80 :: replicate (Z.to_nat ((55 - len) mod 64)) 0
      ++ bigEndian 8 (8 * len).

(** [func Sum256(data []byte) [Size]byte] *)
Definition Sum256 (data : list Z) : list Z :=
  let p := pad data in
  let d := blocks (length p / 64) init p in
  flat_map (bigEndian 4)
    [h0 d; h1 d; h2 d; h3 d; h4 d; h5 d; h6 d; h7 d].

End sha256.

(* ===================================================================== *)
(** * Outcomes of a run *)
(* ===================================================================== *)

(** Errors the file operations return. *)
Inductive error :=
  | ErrNotExist      (* os.Open, os.Stat: the file does not exist *)
  | ErrPermission    (* os.Open, os.Create: the file cannot be opened *)
  | ErrTooLong.      (* bufio.Scanner: token too long *)

(** The messages of [log.Fatalf] in [generatePassphraseFromBinary]. *)
Inductive fatal :=
  | NotFound                (* "Error: binary.txt not found. ..." *)
  | ReadFailure (e : error). (* "Error reading binary.txt: %v" *)

(** Format of the fatal message (main.go; the later revision shortens the
    first one to "Error: binary.txt not found. Use -b first."). *)
Definition message (f : fatal) : string :=
  match f with
  | NotFound =>
      "Error: binary.txt not found. Please generate it first with -b"
  | ReadFailure _ => "Error reading binary.txt: %v"
  end.

(** How a call ends: it returns, the process exits through [log.Fatalf],
    or a run-time panic aborts it. *)
Inductive outcome (A : Type) :=
  | Returned (a : A)
  | Fatal (f : fatal)
  | Panicked.
Arguments Returned {A} a.
Arguments Fatal {A} f.
Arguments Panicked {A}.

#[global] Instance outcome_ret : MRet outcome := fun A a => Returned a.
#[global] Instance outcome_bind : MBind outcome := fun A B k m =>
  match m with
  | Returned a => k a
  | Fatal f => Fatal f
  | Panicked => Panicked
  end.

(** A panicking computation inside a run. *)
Definition orPanic {A} (o : option A) : outcome A :=
  match o with Some a => Returned a | None => Panicked end.

(* ===================================================================== *)
(** * The entropy file *)
(* ===================================================================== *)

Module Store.

(** A path holds a file with its bytes, or one that cannot be opened. *)
Inductive file :=
  | Data (content : gostring)
  | Denied.

Definition bitChar (b : bool) : ascii := if b then "1"%char else "0"%char.

(** The [for i, b := range bits] loop of [writeBinaryFile] and the final
    [if groupCount != 0], as the bytes handed to the writer in order. *)
Fixpoint writeBits (i groupCount : nat) (bits : list bool) : gostring :=
  match bits with
  | [] => if (groupCount =? 0)%nat then [] else ["010"%char]
  | b :: rest =>
      let full := ((i + 1) mod 11 =? 0)%nat in
      let groupCount := if full then S groupCount else groupCount in
      bitChar b
        :: (if full then [" "%char] else [])
        ++ (if (groupCount =? 6)%nat
            then "010"%char :: writeBits (S i) 0 rest
            else writeBits (S i) groupCount rest)
  end.

(** [func writeBinaryFile(filename string, entropy []byte) error]:
    [os.Create] truncates or creates the file; the buffered bytes reach it
    at [Flush]. *)
Definition writeBinaryFile (filename : string) (entropy : list Z)
    (fs : gmap string file) : gmap string file * option error :=
  let bits := bytesToBits entropy in
  match fs !! filename with
  | Some Denied => (fs, Some ErrPermission)
  | _ => (<[filename := Data (writeBits 0 0 bits)]> fs, None)
  end.

(** [bufio.ScanLines] over the whole file: the raw lines, without their
    newline; an empty final line is no line. *)
Fixpoint splitLines (data : gostring) : list gostring :=
  match data with
  | [] => []
  | c :: rest =>
      if Ascii.eqb c "010" then [] :: splitLines rest
      else match splitLines rest with
           | [] => [[c]]
           | line :: lines => (c :: line) :: lines
           end
  end.

(** [dropCR]: a line loses one trailing carriage return. *)
Definition dropCR (line : gostring) : gostring :=
  match last line with
  | Some c => if Ascii.eqb c "013" then take (length line - 1) line else line
  | None => line
  end.

(** [bufio.MaxScanTokenSize = 64 * 1024]: the scanner's buffer. A line
    that fills it without its newline ends the scan with [ErrTooLong]. *)
Definition MaxScanTokenSize : Z := 64 * 1024.

(** [for _, c := range line]: bytes above 127 decode to runes that are
    neither '0' nor '1', so the loop over runes is the loop over bytes. *)
Definition lineBits (bits : list bool) (line : gostring) : list bool :=
  fold_left
    (fun bits c =>
       if Ascii.eqb c "0" then bits ++ [false]
       else if Ascii.eqb c "1" then bits ++ [true]
       else bits)
    line bits.

(** [for scanner.Scan() { ... }] and [return bits, scanner.Err()]. *)
Fixpoint scanLoop (lines : list gostring) (bits : list bool)
  : list bool * option error :=
  match lines with
  | [] => (bits, None)
  | raw :: rest =>
      if MaxScanTokenSize <=? Z.of_nat (length raw)
      then (bits, Some ErrTooLong)
      else scanLoop rest (lineBits bits (dropCR raw))
  end.

(** [func readBinaryFile(filename string) ([]bool, error)] *)
Definition readBinaryFile (filename : string) (fs : gmap string file)
  : list bool * option error :=
  match fs !! filename with
  | None => ([], Some ErrNotExist)
  | Some Denied => ([], Some ErrPermission)
  | Some (Data content) => scanLoop (splitLines content) []
  end.

End Store.

Import Store.

(* ===================================================================== *)
(** * Mnemonic engine *)
(* ===================================================================== *)

Module Engine.

(** [func checksumBits(entropyBits []bool) []bool] *)
Definition checksumBits (entropyBits : list bool) : option (list bool) :=
  entropy ← bitsToBytes entropyBits;
  let hash := sha256.Sum256 entropy in
  let csLen := (length entropyBits / 32)%nat in
  slice (bytesToBits hash) 0 csLen.

(** [wordList[index]] for an [int] index. *)
Definition lookupWord (wordList : list gostring) (index : Z)
  : option gostring :=
  if decide (0 <= index) then wordList !! Z.to_nat index else None.

(** [strings.Join(elems, sep)] *)
Fixpoint Join (elems : list gostring) (sep : gostring) : gostring :=
  match elems with
  | [] => []
  | [w] => w
  | w :: rest => w ++ sep ++ Join rest sep
  end.

(** The loop of [generateMnemonic]: the slice [words] it builds. *)
Definition mnemonicWords (bits : list bool) (wordList : list gostring)
  : option (list gostring) :=
  let wordCount := (length bits / 11)%nat in
  mapM (fun i : nat =>
          group ← slice bits (i * 11) ((i + 1) * 11);
          lookupWord wordList (bitsToInt group))
       (seq 0 wordCount).

(** [func generateMnemonic(bits []bool, wordList []string) string] *)
Definition generateMnemonic (bits : list bool) (wordList : list gostring)
  : option gostring :=
  words ← mnemonicWords bits wordList;
  Some (Join words (lit " ")).

(** [func generatePassphraseFromBinary(wordList []string) string], run in
    the file system [fs]. *)
Definition generatePassphraseFromBinary (fs : gmap string file)
    (wordList : list gostring) : outcome gostring :=
  if decide (fs !! "binary.txt"%string = None) then Fatal NotFound
  else
    match readBinaryFile "binary.txt" fs with
    | (_, Some err) => Fatal (ReadFailure err)
    | (bits, None) =>
        csBits ← orPanic (checksumBits bits);
        let allBits := bits ++ csBits in
        orPanic (generateMnemonic allBits wordList)
    end.

End Engine.

Import Engine.

(* ===================================================================== *)
(** * Token inspection (-i) *)
(* ===================================================================== *)

Module Inspect.

(** The tokens inspected are binary literals and lower-case words: strings
    of ASCII characters, whose runes are their bytes.  [strings.ToLower]
    and [strings.TrimSpace] are written out for such strings, and the
    loops over runes are loops over bytes.  On a string with bytes above
    127 the library decodes runes (it lowers letters outside ASCII and
    trims the white space of Unicode), which these definitions do not:
    what is stated with them is stated for ASCII strings, or depends on
    nothing of what they return. *)

(** [strings.ToLower] on an ASCII string, byte by byte. *)
Definition lowerByte (c : ascii) : ascii :=
  let n := nat_of_ascii c in
  if ((65 <=? n) && (n <=? 90))%nat then ascii_of_nat (n + 32) else c.

Definition ToLower (s : gostring) : gostring := map lowerByte s.

(** The white space of ASCII: tab, newline, vertical tab, form feed,
    carriage return and space. *)
Definition isSpace (c : ascii) : bool :=
  let n := nat_of_ascii c in
  ((9 <=? n) && (n <=? 13) || (n =? 32))%nat.

Fixpoint trimLeft (s : gostring) : gostring :=
  match s with
  | c :: rest => if isSpace c then trimLeft rest else s
  | [] => []
  end.

(** [strings.TrimSpace] on an ASCII string; also on a string whose bytes
    above 127 are those of a byte-order mark at its start, which is no
    white space. *)
Definition TrimSpace (s : gostring) : gostring :=
  rev (trimLeft (rev (trimLeft s))).

(** [func isBinary(s string) bool] *)
Definition isBinary (s : gostring) : bool :=
  forallb
    (fun c => negb (negb (Ascii.eqb c "0") && negb (Ascii.eqb c "1"))) s
  && (0 <? length s)%nat.

(** [func binaryToInt(bin string) int] *)
Definition binaryToInt (bin : gostring) : Z :=
  fold_left
    (fun n c =>
       let n := wrap64 (Z.shiftl n 1) in
       if Ascii.eqb c "1" then Z.lor n 1 else n)
    bin 0.

(** Padding of the [%011s] and [%011b] verbs: zeros on the left up to the
    width, nothing cut. *)
Definition zeroPad (width : nat) (s : gostring) : gostring :=
  replicate (width - length s) "0"%char ++ s.

(** Binary digits of a positive number, most significant first. *)
Fixpoint binaryDigits (p : positive) (tail : gostring) : gostring :=
  match p with
  | xH => "1"%char :: tail
  | xO q => binaryDigits q ("0"%char :: tail)
  | xI q => binaryDigits q ("1"%char :: tail)
  end.

(** [fmt.Sprintf("%011b", i)] for a slice index [i]. *)
Definition Sprintf_011b (i : nat) : gostring :=
  zeroPad 11
    match N.of_nat i with
    | N0 => ["0"%char]
    | Npos p => binaryDigits p []
    end.

(** [fmt.Sprintf("%011s", input)] *)
Definition Sprintf_011s (input : gostring) : gostring := zeroPad 11 input.

(** What [showWordInfo] prints. *)
Inductive report :=
  | BinaryInfo (bin : gostring) (idx : Z) (word : gostring)
      (* Binary: bin / Index: idx / Word: word *)
  | WordInfo (word : gostring) (idx : nat) (bin : gostring)
      (* Word: word / Index: idx / Binary: bin *)
  | ErrTooManyBits   (* "Error: binary must be <= 11 bits." *)
  | ErrOutOfRange    (* "Error: binary out of range (0–2047)." *)
  | ErrNeither (input : gostring).
      (* "Error: '%s' is neither a valid word nor a valid binary." *)

(** [for i, w := range wordList { if w == input { ... return } }]:
    the index of the first match, counted from [i]. *)
Fixpoint findWord (i : nat) (wordList : list gostring) (input : gostring)
  : option nat :=
  match wordList with
  | [] => None
  | w :: rest =>
      if decide (w = input) then Some i else findWord (S i) rest input
  end.

(** [func showWordInfo(input string, wordList []string)] *)
Definition showWordInfo (input : gostring) (wordList : list gostring)
  : option report :=
  let input := TrimSpace (ToLower input) in
  if isBinary input then
    let input :=
      if decide (length input < 11)%nat then Sprintf_011s input else input in
    if decide (length input ≠ 11%nat) then Some ErrTooManyBits
    else
      let idx := binaryToInt input in
      if decide (idx < 0 ∨ idx >= 2048) then Some ErrOutOfRange
      else
        word ← lookupWord wordList idx;
        Some (BinaryInfo input idx word)
  else
    match findWord 0 wordList input with
    | Some i => Some (WordInfo input i (Sprintf_011b i))
    | None => Some (ErrNeither input)
    end.

End Inspect.

Import Inspect.

(* ===================================================================== *)
(** * Functions and predicates of the statements *)
(* ===================================================================== *)

Section Statements.

Local Open Scope nat_scope.

(** The bits [bs] of one byte, from position [j] on, or-ed into [x]. *)
Fixpoint packBits (j : nat) (bs : list bool) (x : Z) : Z :=
  match bs with
  | [] => x
  | b :: rest =>
      packBits (S j) rest
        (if b : bool
         then Z.lor x ((Z.shiftl 1 (7 - Z.of_nat j)) mod 256)%Z else x)
  end.

(** The big-endian value of the bits, continuing from [n]. *)
Definition bitsValue (bits : list bool) (n : Z) : Z :=
  fold_left (fun n (b : bool) => (2 * n + Z.b2z b)%Z) bits n.

(** The [i]-th 11-bit group of [bits]. *)
Definition group11 (bits : list bool) (i : nat) : list bool :=
  take 11 (drop (i * 11) bits).

(** The word the [i]-th group selects. *)
Definition wordAt (wordList : list gostring) (bits : list bool) (i : nat)
  : gostring :=
  default [] (wordList !! Z.to_nat (bitsToInt (group11 bits i))).

(** The bit a character of the file stands for, if any. *)
Definition charBit (c : ascii) : option bool :=
  if Ascii.eqb c "0" then Some false
  else if Ascii.eqb c "1" then Some true
  else None.

(** One bit per '0' or '1' of the content, in file order. *)
Definition fileBits (content : gostring) : list bool := omap charBit content.

(** Every line of the content fits the scanner's buffer. *)
Definition linesFit (content : gostring) : Prop :=
  Forall (fun raw => (Z.of_nat (length raw) < MaxScanTokenSize)%Z)
         (splitLines content).

(** A stand-in for the embedded word list, which is not part of the
    sources: 2048 distinct words of lower-case letters, the binary digits
    of the index spelled with a for 0 and b for 1. *)
Definition sampleWord (i : nat) : gostring :=
  map (fun c => if Ascii.eqb c "1" then "b"%char else "a"%char)
      (Sprintf_011b i).

Definition sampleWordList : list gostring := map sampleWord (seq 0 2048).

(** File systems used as examples. *)
Definition sampleContent : gostring :=
  lit "10100000000 1" ++ "010"%char :: lit "0x".

Definition sampleStore : gmap string file :=
  {[ "binary.txt"%string := Data sampleContent ]}.

Definition compactContent : gostring := lit "1010000000010".

Definition compactStore : gmap string file :=
  {[ "binary.txt"%string := Data compactContent ]}.

Definition noBitsContent : gostring :=
  lit "# no entropy here" ++ ["010"%char].

Definition noBitsStore : gmap string file :=
  {[ "binary.txt"%string := Data noBitsContent ]}.

Definition longLineStore : gmap string file :=
  {[ "binary.txt"%string := Data (replicate (N.to_nat 70000) "0"%char) ]}.

Definition longEntropyStore : gmap string file :=
  {[ "binary.txt"%string := Data (replicate (257 * 32) "0"%char) ]}.

(** The layout in words: [n] complete groups follow the [k] already
    written, each group with a space after it and a newline after every
    sixth; then the bits left over; then a newline if [trailing] asks for
    one. *)
Fixpoint layoutGroups (trailing : nat -> list bool -> bool)
    (n k : nat) (bits : list bool) : gostring :=
  match n with
  | O => map bitChar bits ++ (if trailing k bits then ["010"%char] else [])
  | S n' =>
      map bitChar (take 11 bits)
        ++ " "%char :: (if (S k mod 6 =? 0) then ["010"%char] else [])
        ++ layoutGroups trailing n' (S k) (drop 11 bits)
  end.

(** The last line is partial: it holds a group or some left-over bits. *)
Definition lastLinePartial (k : nat) (rest : list bool) : bool :=
  negb (k mod 6 =? 0) || negb (length rest =? 0).

(** The last line holds at least one complete group. *)
Definition lastLineHasGroup (k : nat) (rest : list bool) : bool :=
  negb (k mod 6 =? 0).

(** The layout the specification describes. *)
Definition layoutSpecified (bits : list bool) : gostring :=
  layoutGroups lastLinePartial (length bits / 11) 0 bits.

(** The layout [writeBinaryFile] produces. *)
Definition layoutWritten (bits : list bool) : gostring :=
  layoutGroups lastLineHasGroup (length bits / 11) 0 bits.

(** A character of a binary literal. *)
Definition isBit (c : ascii) : Prop := c = "0"%char ∨ c = "1"%char.

(** The bit a binary digit stands for: [c == '1']. *)
Definition isOne (c : ascii) : bool := Ascii.eqb c "1".

(** The number a binary literal writes: each '1' counts for two to the
    number of digits after it. *)
Fixpoint binaryValue (s : gostring) : Z :=
  match s with
  | [] => 0%Z
  | c :: rest =>
      ((if isOne c then 2 ^ Z.of_nat (length rest) else 0)
       + binaryValue rest)%Z
  end.

(** A byte of ASCII. *)
Definition isASCII (c : ascii) : bool := nat_of_ascii c <? 128.

(** A string of ASCII characters: its runes are its bytes, and
    [ToLower] and [TrimSpace] are the library's on it. *)
Definition asciiText (s : gostring) : Prop := forallb isASCII s = true.

(** A lower-case letter, a to z. *)
Definition isLowerLetter (c : ascii) : bool :=
  let n := nat_of_ascii c in (97 <=? n) && (n <=? 122).

(** A character that [ToLower] keeps and [TrimSpace] does not cut. *)
Definition isPlain (c : ascii) : Prop := lowerByte c = c ∧ isSpace c = false.

(** What the embedded word list, which the sources do not include, is
    taken to be: the 2048 distinct words of the BIP-39 English list, each
    made of lower-case letters only. *)
Definition wellFormedWordList (wordList : list gostring) : Prop :=
  length wordList = 2048
  ∧ NoDup wordList
  ∧ Forall (fun w => forallb isLowerLetter w = true) wordList.

End Statements.

(* ===================================================================== *)
(** * The word list and the command line *)
(* ===================================================================== *)

(** [loadWordList] and [main], after the later revision of the program
    (the one with -i; without an -i argument it runs as main.go does). *)
Module Program.

(** [strings.Split(s, sep)] for a separator of one byte, as [loadWordList]
    calls it: the pieces between the separators, one more than there are
    separators. *)
Fixpoint Split (s : gostring) (sep : ascii) : list gostring :=
  match s with
  | [] => [[]]
  | c :: rest =>
      if Ascii.eqb c sep then [] :: Split rest sep
      else match Split rest sep with
           | piece :: pieces => (c :: piece) :: pieces
           | [] => [[c]]
           end
  end.

(** [strings.HasPrefix] *)
Fixpoint HasPrefix (s prefix : gostring) : bool :=
  match prefix, s with
  | [], _ => true
  | p :: prefix', c :: s' => Ascii.eqb c p && HasPrefix s' prefix'
  | _ :: _, [] => false
  end.

(** [strings.TrimPrefix] *)
Definition TrimPrefix (s prefix : gostring) : gostring :=
  if HasPrefix s prefix then drop (length prefix) s else s.

(** The byte-order mark U+FEFF, in UTF-8. *)
Definition BOM : gostring := ["239"; "187"; "191"]%char.

(** [func loadWordList() []string] on the embedded text: an ASCII text,
    with or without a byte-order mark at its start, on which [TrimSpace]
    is the library's. *)
Definition loadWordList (wordListText : gostring) : list gostring :=
  let lines := Split wordListText "010" in
  fold_left
    (fun words w =>
       let w := TrimSpace w in
       let w := TrimPrefix w BOM in
       match w with
       | [] => words
       | _ :: _ => words ++ [w]
       end)
    lines [].

(** The command-line flags after [flag.Parse]. *)
Record flags := Flags {
  genBinary : bool;        (* -b *)
  useBinary : bool;        (* -p *)
  showHelp : bool;         (* -h *)
  showQRCode : bool;       (* -q *)
  inspectWord : gostring   (* -i *)
}.

(** What the run depends on besides the file system: the embedded text,
    the 32 bytes [rand.Read] fills in (or its failure), and the QR-code
    library ([qrcode.New] with [ToSmallString], or its failure). *)
Record environment := Environment {
  wordListText : gostring;
  random : option (list Z);
  qrcode : gostring -> option gostring
}.

(** What the run writes to standard output. *)
Inductive event :=
  | Help                          (* printHelp() *)
  | Println (line : gostring)     (* fmt.Println(line) *)
  | Inspected (r : report).       (* the lines of showWordInfo *)

(** The calls to [log.Fatalf] of [main] and of the functions it calls. *)
Inductive failure :=
  | WordListLength (n : nat)   (* "Error: word list length %d, expected 2048" *)
  | EntropyFailure             (* "Error generating entropy: %v" *)
  | WriteFailure (e : error)   (* "Error writing binary.txt: %v" *)
  | DeriveFailure (f : fatal)  (* from generatePassphraseFromBinary *)
  | QRFailure.                 (* "Error generating QR code: %v" *)

(** How the process ends. *)
Inductive status :=
  | Exited                 (* main returns *)
  | Failed (f : failure)   (* log.Fatalf *)
  | Crashed.               (* run-time panic *)

(** The file system and what has been printed so far. *)
Record world := World {
  files : gmap string file;
  printed : list event
}.

Definition print (e : event) (w : world) : world :=
  World (files w) (printed w ++ [e]).

(** A block of [main]: it ends the run, or lets it go on. *)
Definition block := world -> option status * world.

(** The blocks one after the other, up to the first that ends the run. *)
Fixpoint runBlocks (blocks : list block) (w : world) : status * world :=
  match blocks with
  | [] => (Exited, w)
  | b :: rest =>
      match b w with
      | (Some st, w') => (st, w')
      | (None, w') => runBlocks rest w'
      end
  end.

(** [if *genBinary { ... }] *)
Definition generateBlock (env : environment) (fl : flags) : block :=
  fun w =>
    if genBinary fl then
      match random env with
      | None => (Some (Failed EntropyFailure), w)
      | Some entropy =>
          match writeBinaryFile "binary.txt" entropy (files w) with
          | (fs, Some err) =>
              (Some (Failed (WriteFailure err)), World fs (printed w))
          | (fs, None) =>
              (None,
               print (Println (lit "binary.txt generated successfully."))
                     (World fs (printed w)))
          end
      end
    else (None, w).

(** [if *useBinary { ... }] *)
Definition passphraseBlock (wordList : list gostring) (fl : flags) : block :=
  fun w =>
    if useBinary fl then
      match generatePassphraseFromBinary (files w) wordList with
      | Returned passphrase =>
          (None,
           print (Println passphrase) (print (Println (lit "Passphrase:")) w))
      | Fatal f => (Some (Failed (DeriveFailure f)), w)
      | Panicked => (Some Crashed, w)
      end
    else (None, w).

(** [if *showQRCode { ... }] *)
Definition qrBlock (env : environment) (wordList : list gostring)
    (fl : flags) : block :=
  fun w =>
    if showQRCode fl then
      match generatePassphraseFromBinary (files w) wordList with
      | Returned passphrase =>
          let w := print (Println (lit "Passphrase QR Code:")) w in
          match qrcode env passphrase with
          | None => (Some (Failed QRFailure), w)
          | Some picture => (None, print (Println picture) w)
          end
      | Fatal f => (Some (Failed (DeriveFailure f)), w)
      | Panicked => (Some Crashed, w)
      end
    else (None, w).

(** [func main()] *)
Definition main (env : environment) (fl : flags) (w : world)
  : status * world :=
  if negb (genBinary fl) && negb (useBinary fl) && negb (showQRCode fl)
     && negb (showHelp fl) && bool_decide (inspectWord fl = [])
  then (Exited, print Help w)
  else if showHelp fl then (Exited, print Help w)
  else
    let wordList := loadWordList (wordListText env) in
    if bool_decide (length wordList ≠ 2048%nat)
    then (Failed (WordListLength (length wordList)), w)
    else if bool_decide (inspectWord fl ≠ [])
    then
      match showWordInfo (inspectWord fl) wordList with
      | Some r => (Exited, print (Inspected r) w)
      | None => (Crashed, w)
      end
    else
      runBlocks
        [generateBlock env fl; passphraseBlock wordList fl;
         qrBlock env wordList fl] w.

End Program.

Import Program.

Section ProgramStatements.

Local Open Scope nat_scope.

(** The string does not begin with white space. *)
Definition noLeadingSpace (s : gostring) : Prop :=
  match s with
  | c :: _ => isSpace c = false
  | [] => True
  end.

(** A word-list text on which [loadWordList] is the program's: ASCII,
    after the byte-order mark if it starts with one. *)
Definition plainWordListText (text : gostring) : Prop :=
  asciiText (TrimPrefix text BOM).

(** A word as the word list has them: lower-case letters, at least one. *)
Definition cleanWord (w : gostring) : Prop :=
  w ≠ [] ∧ forallb isLowerLetter w = true.

(** What [loadWordList] keeps of a line, if anything. *)
Definition cleanLine (line : gostring) : option gostring :=
  match TrimPrefix (TrimSpace line) BOM with
  | [] => None
  | w => Some w
  end.

(** A word-list text: an optional byte-order mark, then one word per line,
    the lines ended by a newline or by carriage return and newline. *)
Definition wordListFile (bom crlf : bool) (words : list gostring) : gostring :=
  (if bom then BOM else [])
  ++ flat_map
       (fun w => w ++ (if crlf then ["013"%char] else []) ++ ["010"%char])
       words.

(** Some action other than help is asked for. *)
Definition actionRequested (fl : flags) : Prop :=
  showHelp fl = false
  ∧ (genBinary fl = true ∨ useBinary fl = true ∨ showQRCode fl = true
     ∨ inspectWord fl ≠ []).

(** A run that starts with no file and nothing printed. *)
Definition emptyWorld : world := World ∅ [].

(** An environment whose embedded text is a single word. *)
Definition oneWordEnvironment : environment :=
  Environment (lit "abandon") None (fun passphrase => Some passphrase).

(** An environment whose embedded text lists the sample words. *)
Definition sampleEnvironment : environment :=
  Environment (wordListFile true false sampleWordList)
              (Some (replicate 32 0%Z))
              (fun passphrase => Some passphrase).

End ProgramStatements.

(* ===================================================================== *)
(** * The model on known values *)
(* ===================================================================== *)

Example byteBits_0xA5 :
  byteBits 165 = [true; false; true; false; false; true; false; true].
Proof. reflexivity. Qed.

Example bitsToBytes_partial :
  bitsToBytes [true; false; true; false; false; true; false; true; true]
  = Some [165; 128].
Proof. reflexivity. Qed.

Example bitsToInt_101 : bitsToInt [true; false; true] = 5.
Proof. reflexivity. Qed.

Example Sum256_empty :
  sha256.Sum256 [] =
  [227; 176; 196; 66; 152; 252; 28; 20; 154; 251; 244; 200; 153; 111; 185; 36;
   39; 174; 65; 228; 100; 155; 147; 76; 164; 149; 153; 27; 120; 82; 184; 85].
Proof. vm_compute. reflexivity. Qed.

Example Sum256_abc :
  sha256.Sum256 [97; 98; 99] =
  [186; 120; 22; 191; 143; 1; 207; 234; 65; 65; 64; 222; 93; 174; 34; 35;
   176; 3; 97; 163; 150; 23; 122; 156; 180; 16; 255; 97; 242; 0; 21; 173].
Proof. vm_compute. reflexivity. Qed.

Example Sum256_two_blocks :
  sha256.Sum256 (replicate 56 97) =
  [179; 84; 57; 164; 172; 111; 9; 72; 182; 214; 249; 227; 198; 175; 15; 95;
   89; 12; 226; 15; 27; 222; 112; 144; 239; 121; 112; 104; 110; 198; 115; 138].
Proof. vm_compute. reflexivity. Qed.

Example Sum256_zero_entropy :
  sha256.Sum256 (replicate 32 0) =
  [102; 104; 122; 173; 248; 98; 189; 119; 108; 143; 193; 139; 142; 159; 142; 32;
   8; 151; 20; 133; 110; 226; 51; 179; 144; 42; 89; 29; 13; 95; 41; 37].
Proof. vm_compute. reflexivity. Qed.

Example splitLines_ex :
  splitLines (lit "ab" ++ "010"%char :: lit "c" ++ ["010"; "010"]%char)
  = [lit "ab"; lit "c"; []].
Proof. reflexivity. Qed.

Example writeBits_24 :
  writeBits 0 0 (bytesToBits [165; 0; 255])
  = lit "10100101000 00000111111 11" ++ ["010"%char].
Proof. reflexivity. Qed.

Example Sprintf_011b_5 : Sprintf_011b 5 = lit "00000000101".
Proof. reflexivity. Qed.

Example TrimSpace_ex :
  TrimSpace (ToLower (lit "  Zoo " ++ ["009"%char])) = lit "zoo".
Proof. reflexivity. Qed.

(* ===================================================================== *)
(** * Bit codec: packing and unpacking *)
(* ===================================================================== *)

Section BitCodec.

Local Open Scope nat_scope.

Lemma index_in_byte k j : j < 8 -> (8 * k + j) / 8 = k ∧ (8 * k + j) mod 8 = j.
Proof.
  intros Hj. split.
  - symmetry. apply (Nat.div_unique _ 8 k j); lia.
  - symmetry. apply (Nat.mod_unique _ 8 k j); lia.
Qed.

Lemma setBit_middle done x tl k j :
  length done = k -> j < 8 ->
  setBit (done ++ x :: tl) (8 * k + j)
  = Some (done ++ Z.lor x ((Z.shiftl 1 (7 - Z.of_nat j)) mod 256)%Z :: tl).
Proof.
  intros Hk Hj. unfold setBit.
  destruct (index_in_byte k j Hj) as [-> ->]. subst k.
  rewrite list_lookup_middle by reflexivity. simpl.
  f_equal. rewrite insert_app_r_alt by lia.
  replace (length done - length done) with 0 by lia. reflexivity.
Qed.

Lemma loop_in_byte bs : forall j x rest done tl k,
  length done = k -> j + length bs <= 8 ->
  bitsToBytes_loop (8 * k + j) (bs ++ rest) (done ++ x :: tl)
  = bitsToBytes_loop (8 * k + j + length bs) rest
      (done ++ packBits j bs x :: tl).
Proof.
  induction bs as [|b bs IH]; intros j x rest done tl k Hk Hj;
    cbn [app length packBits bitsToBytes_loop] in *.
  - f_equal. lia.
  - assert (Hj' : j < 8) by lia.
    replace (8 * k + j + S (length bs)) with (8 * k + S j + length bs) by lia.
    replace (S (8 * k + j)) with (8 * k + S j) by lia.
    destruct b.
    + rewrite (setBit_middle done x tl k j Hk Hj').
      cbn [mbind option_bind]. apply IH; [assumption | lia].
    + cbn [mbind option_bind]. apply IH; [assumption | lia].
Qed.

Lemma packBits_byteBits_check :
  forallb (fun n => (packBits 0 (byteBits (Z.of_nat n)) 0 =? Z.of_nat n)%Z)
          (seq 0 256) = true.
Proof. vm_compute. reflexivity. Qed.

Lemma packBits_byteBits b : is_byte b -> packBits 0 (byteBits b) 0%Z = b.
Proof.
  intros [Hlo Hhi].
  pose proof packBits_byteBits_check as Hall.
  rewrite forallb_forall in Hall.
  specialize (Hall (Z.to_nat b)).
  rewrite Z2Nat.id in Hall by assumption.
  apply Z.eqb_eq, Hall, in_seq. lia.
Qed.

Lemma length_byteBits b : length (byteBits b) = 8.
Proof. reflexivity. Qed.

Lemma length_bytesToBits B : length (bytesToBits B) = 8 * length B.
Proof.
  induction B as [|b B IH]; [reflexivity|].
  change (bytesToBits (b :: B)) with (byteBits b ++ bytesToBits B).
  rewrite length_app, IH, length_byteBits. simpl. lia.
Qed.

Lemma loop_bytesToBits B : forall done,
  Forall is_byte B ->
  bitsToBytes_loop (8 * length done) (bytesToBits B)
    (done ++ replicate (length B) 0%Z)
  = Some (done ++ B).
Proof.
  induction B as [|b B IH]; intros done HB.
  - simpl. reflexivity.
  - apply Forall_cons in HB as [Hb HB].
    change (bytesToBits (b :: B)) with (byteBits b ++ bytesToBits B).
    change (replicate (length (b :: B)) 0%Z)
      with (0%Z :: replicate (length B) 0%Z).
    pose proof (loop_in_byte (byteBits b) 0 0%Z (bytesToBits B) done
                  (replicate (length B) 0%Z) (length done) eq_refl) as Hstep.
    rewrite Nat.add_0_r in Hstep. rewrite Hstep by (rewrite length_byteBits; lia).
    rewrite packBits_byteBits by assumption.
    rewrite length_byteBits.
    replace (8 * length done + 8) with (8 * length (done ++ [b]))
      by (rewrite length_app; simpl; lia).
    replace (done ++ b :: replicate (length B) 0%Z)
      with ((done ++ [b]) ++ replicate (length B) 0%Z)
      by (rewrite <- app_assoc; reflexivity).
    rewrite IH by assumption. rewrite <- app_assoc. reflexivity.
Qed.

(** C1. Packing the bits of a byte buffer gives the buffer back:
    [bitsToBytes (bytesToBits B)] returns [B], for every buffer [B] of
    bytes. *)
Theorem bitsToBytes_bytesToBits (B : list Z) :
  Forall is_byte B -> bitsToBytes (bytesToBits B) = Some B.
Proof.
  intros HB. unfold bitsToBytes. rewrite length_bytesToBits.
  replace ((8 * length B + 7) / 8) with (length B)
    by (apply (Nat.div_unique _ 8 _ 7); lia).
  apply (loop_bytesToBits B [] HB).
Qed.

Lemma bitsToBytes_bytesToBits_witness :
  Forall is_byte [0; 165; 255]%Z
  ∧ bitsToBytes (bytesToBits [0; 165; 255]%Z) = Some [0; 165; 255]%Z.
Proof.
  assert (H : Forall is_byte [0; 165; 255]%Z)
    by (repeat constructor; unfold is_byte; lia).
  split; [exact H | exact (bitsToBytes_bytesToBits _ H)].
Defined.

End BitCodec.

(* ===================================================================== *)
(** * Bit codec: no panic, and the value of a bit group *)
(* ===================================================================== *)

Section BitCodecTotal.

Local Open Scope nat_scope.

Lemma setBit_in_range out i :
  i < 8 * length out ->
  exists out', setBit out i = Some out' ∧ length out' = length out.
Proof.
  intros Hi. unfold setBit.
  assert (Hq : i / 8 < length out) by (apply Nat.Div0.div_lt_upper_bound; lia).
  destruct (lookup_lt_is_Some_2 out (i / 8) Hq) as [x Hx].
  rewrite Hx. cbn [mbind option_bind]. eexists. split; [reflexivity|].
  apply length_insert.
Qed.

Lemma bitsToBytes_loop_total bits : forall i out,
  i + length bits <= 8 * length out ->
  exists out',
    bitsToBytes_loop i bits out = Some out' ∧ length out' = length out.
Proof.
  induction bits as [|b bits IH]; intros i out Hi;
    cbn [bitsToBytes_loop length] in *.
  - eauto.
  - destruct b.
    + destruct (setBit_in_range out i) as (out1 & -> & Hlen); [lia|].
      cbn [mbind option_bind].
      destruct (IH (S i) out1) as (out2 & -> & Hlen2); [lia|].
      exists out2. split; [reflexivity | congruence].
    + cbn [mbind option_bind]. apply IH. lia.
Qed.

(** [bitsToBytes] never indexes outside [out]: it returns
    [ceil (len(bits) / 8)] bytes. *)
Lemma bitsToBytes_total bits :
  exists out,
    bitsToBytes bits = Some out ∧ length out = (length bits + 7) / 8.
Proof.
  unfold bitsToBytes.
  destruct (bitsToBytes_loop_total bits 0
              (replicate ((length bits + 7) / 8) 0%Z)) as (out & Hout & Hlen).
  - rewrite length_replicate.
    pose proof (Nat.div_mod_eq (length bits + 7) 8).
    pose proof (Nat.mod_upper_bound (length bits + 7) 8). lia.
  - exists out. split; [exact Hout|]. rewrite Hlen. apply length_replicate.
Qed.

End BitCodecTotal.

Section BitValue.

Lemma wrap64_small n : - 2 ^ 63 <= n < 2 ^ 63 -> wrap64 n = n.
Proof.
  intros Hn. unfold wrap64. rewrite Z.mod_small; lia.
Qed.

Lemma shift_or n (b : bool) :
  0 <= n < 2 ^ 62 ->
  (if b then Z.lor (wrap64 (Z.shiftl n 1)) 1 else wrap64 (Z.shiftl n 1))
  = 2 * n + Z.b2z b.
Proof.
  intros Hn.
  rewrite Z.shiftl_mul_pow2 by lia. rewrite wrap64_small by lia.
  destruct b; simpl Z.b2z; [|lia].
  destruct n as [|p|p]; [reflexivity| |lia].
  replace (Z.pos p * 2 ^ 1) with (Z.pos p~0) by lia. reflexivity.
Qed.

Lemma bitsValue_bound bits : forall n k,
  0 <= k -> 0 <= n < 2 ^ k ->
  0 <= bitsValue bits n < 2 ^ (k + Z.of_nat (length bits)).
Proof.
  induction bits as [|b bits IH]; intros n k Hk Hn; cbn [bitsValue fold_left length].
  - rewrite Z.add_0_r. exact Hn.
  - replace (k + Z.of_nat (S (length bits)))
      with ((k + 1) + Z.of_nat (length bits)) by lia.
    apply IH; [lia|].
    rewrite Z.pow_add_r by lia. destruct b; simpl Z.b2z; lia.
Qed.

Lemma bitsToInt_fold bits : forall n k,
  0 <= k -> 0 <= n < 2 ^ k -> k + Z.of_nat (length bits) <= 62 ->
  fold_left
    (fun n (b : bool) =>
       let n := wrap64 (Z.shiftl n 1) in if b then Z.lor n 1 else n)
    bits n
  = bitsValue bits n.
Proof.
  induction bits as [|b bits IH]; intros n k Hk Hn Hlen;
    cbn [bitsValue fold_left length] in *; [reflexivity|].
  assert (Hn62 : 0 <= n < 2 ^ 62).
  { split; [lia|]. apply Z.lt_le_trans with (2 ^ k); [lia|].
    apply Z.pow_le_mono_r; lia. }
  cbv beta zeta. rewrite (shift_or n b Hn62).
  apply (IH _ (k + 1)); [lia| |lia].
  rewrite Z.pow_add_r by lia. destruct b; simpl Z.b2z; lia.
Qed.

(** Up to 62 bits [bitsToInt] does not wrap: it is the big-endian value. *)
Lemma bitsToInt_value bits :
  (length bits <= 62)%nat ->
  bitsToInt bits = bitsValue bits 0
  ∧ 0 <= bitsToInt bits < 2 ^ Z.of_nat (length bits).
Proof.
  intros Hlen.
  assert (Heq : bitsToInt bits = bitsValue bits 0)
    by (apply (bitsToInt_fold bits 0 0); lia).
  split; [exact Heq|]. rewrite Heq.
  apply (bitsValue_bound bits 0 0); lia.
Qed.

Lemma bitsToInt_11 group :
  length group = 11%nat -> 0 <= bitsToInt group <= 2047.
Proof.
  intros Hlen. destruct (bitsToInt_value group) as [_ Hb]; [lia|].
  rewrite Hlen in Hb. change (2 ^ Z.of_nat 11) with 2048 in Hb. lia.
Qed.

End BitValue.

(* ===================================================================== *)
(** * Mnemonic engine: checksum and word lookup *)
(* ===================================================================== *)

Section EngineLemmas.

Local Open Scope nat_scope.

Lemma Sum256_length data : length (sha256.Sum256 data) = 32.
Proof. reflexivity. Qed.

Lemma hash_bits_length data : length (bytesToBits (sha256.Sum256 data)) = 256.
Proof. rewrite length_bytesToBits, Sum256_length. reflexivity. Qed.

Lemma slice_prefix {A} (s : list A) n :
  n <= length s -> slice s 0 n = Some (take n s).
Proof.
  intros Hn. unfold slice. rewrite decide_True by lia.
  rewrite Nat.sub_0_r. reflexivity.
Qed.

Lemma slice_beyond {A} (s : list A) lo hi :
  length s < hi -> slice s lo hi = None.
Proof. intros Hn. unfold slice. rewrite decide_False by lia. reflexivity. Qed.

Lemma group_in_range bits i :
  i < length bits / 11 ->
  slice bits (i * 11) ((i + 1) * 11) = Some (group11 bits i)
  ∧ length (group11 bits i) = 11.
Proof.
  intros Hi.
  assert (Hhi : (i + 1) * 11 <= length bits).
  { pose proof (Nat.div_mod_eq (length bits) 11). nia. }
  unfold slice, group11. rewrite decide_True by lia.
  replace ((i + 1) * 11 - i * 11) with 11 by lia.
  split; [reflexivity|]. rewrite length_take, length_drop. lia.
Qed.

Lemma mapM_map_Some {A B} (f : A -> option B) (g : A -> B) l :
  Forall (fun x => f x = Some (g x)) l -> mapM f l = Some (map g l).
Proof.
  intros Hall. apply mapM_Some_2.
  induction Hall; simpl; constructor; assumption.
Qed.

(** With 2048 words every group finds its word: neither the slice nor the
    word-list index of [generateMnemonic] goes out of range. *)
Lemma mnemonicWords_total bits wordList :
  length wordList = 2048 ->
  mnemonicWords bits wordList
  = Some (map (wordAt wordList bits) (seq 0 (length bits / 11))).
Proof.
  intros Hwl. unfold mnemonicWords. apply mapM_map_Some.
  apply Forall_forall. intros i Hi. apply list_elem_of_In, in_seq in Hi.
  destruct (group_in_range bits i) as [-> Hlen]; [lia|].
  cbn [mbind option_bind].
  pose proof (bitsToInt_11 _ Hlen) as Hidx.
  unfold lookupWord, wordAt. rewrite decide_True by lia.
  destruct (lookup_lt_is_Some_2 wordList (Z.to_nat (bitsToInt (group11 bits i))))
    as [w Hw]; [lia|].
  rewrite Hw. reflexivity.
Qed.

Lemma generateMnemonic_total bits wordList :
  length wordList = 2048 ->
  generateMnemonic bits wordList
  = Some (Join (map (wordAt wordList bits) (seq 0 (length bits / 11)))
               (lit " ")).
Proof.
  intros Hwl. unfold generateMnemonic.
  rewrite (mnemonicWords_total bits wordList Hwl). reflexivity.
Qed.

(** The checksum is cut from the 256 bits of the hash: it exists exactly
    when [len(entropyBits)/32] is at most 256. *)
Lemma checksumBits_defined entropyBits :
  length entropyBits / 32 <= 256 ->
  exists entropy,
    bitsToBytes entropyBits = Some entropy
    ∧ checksumBits entropyBits
      = Some (take (length entropyBits / 32)
                (bytesToBits (sha256.Sum256 entropy)))
    ∧ length (take (length entropyBits / 32)
                (bytesToBits (sha256.Sum256 entropy)))
      = length entropyBits / 32.
Proof.
  intros Hn. destruct (bitsToBytes_total entropyBits) as (entropy & He & _).
  exists entropy. split; [exact He|]. unfold checksumBits. rewrite He.
  cbn [mbind option_bind]. cbv zeta.
  rewrite slice_prefix by (rewrite hash_bits_length; exact Hn).
  split; [reflexivity|]. rewrite length_take, hash_bits_length. lia.
Qed.

Lemma checksumBits_panics entropyBits :
  256 < length entropyBits / 32 -> checksumBits entropyBits = None.
Proof.
  intros Hn. destruct (bitsToBytes_total entropyBits) as (entropy & He & _).
  unfold checksumBits. rewrite He. cbn [mbind option_bind]. cbv zeta.
  apply slice_beyond. rewrite hash_bits_length. exact Hn.
Qed.

End EngineLemmas.

(* ===================================================================== *)
(** * Loading the entropy file *)
(* ===================================================================== *)

Section Loading.

Local Open Scope nat_scope.

Lemma omap_app {A B} (f : A -> option B) (l k : list A) :
  omap f (l ++ k) = omap f l ++ omap f k.
Proof.
  induction l as [|x l IH]; [reflexivity|].
  cbn [app omap list_omap]. destruct (f x); cbn [app]; rewrite IH; reflexivity.
Qed.

Lemma fileBits_zeros n : fileBits (replicate n "0"%char) = replicate n false.
Proof.
  induction n as [|n IH]; [reflexivity|].
  unfold fileBits in *. cbn [replicate omap list_omap]. rewrite IH. reflexivity.
Qed.

Lemma splitLines_zeros n :
  0 < n -> splitLines (replicate n "0"%char) = [replicate n "0"%char].
Proof.
  intros Hn. destruct n as [|n]; [lia|]. clear Hn.
  induction n as [|n IH]; [reflexivity|].
  change (replicate (S (S n)) "0"%char)
    with ("0"%char :: replicate (S n) "0"%char).
  cbn [splitLines]. rewrite IH. reflexivity.
Qed.

Lemma lineBits_fileBits line : forall bits,
  lineBits bits line = bits ++ fileBits line.
Proof.
  unfold lineBits, fileBits.
  induction line as [|c line IH]; intros bits; cbn [fold_left omap list_omap].
  - rewrite app_nil_r. reflexivity.
  - rewrite IH. unfold charBit.
    destruct (Ascii.eqb c "0"); [rewrite <- app_assoc; reflexivity|].
    destruct (Ascii.eqb c "1"); [rewrite <- app_assoc; reflexivity|].
    reflexivity.
Qed.

Lemma fileBits_dropCR line : fileBits (dropCR line) = fileBits line.
Proof.
  unfold dropCR. destruct (last line) as [c|] eqn:Hlast; [|reflexivity].
  destruct (Ascii.eqb c "013") eqn:Hc; [|reflexivity].
  apply Ascii.eqb_eq in Hc. subst c.
  apply last_Some in Hlast as [front ->].
  rewrite length_app. cbn [length].
  replace (length front + 1 - 1) with (length front) by lia.
  rewrite take_app_length. unfold fileBits. rewrite omap_app.
  cbn. rewrite app_nil_r. reflexivity.
Qed.

Lemma fileBits_splitLines content :
  flat_map fileBits (splitLines content) = fileBits content.
Proof.
  induction content as [|c content IH]; [reflexivity|].
  cbn [splitLines]. destruct (Ascii.eqb c "010") eqn:Hc.
  - apply Ascii.eqb_eq in Hc. subst c. cbn [flat_map]. rewrite IH. reflexivity.
  - unfold fileBits at 2. cbn [omap list_omap]. fold (fileBits content).
    rewrite <- IH.
    destruct (splitLines content) as [|line lines]; cbn [flat_map].
    + unfold fileBits. cbn [omap list_omap]. destruct (charBit c); reflexivity.
    + unfold fileBits at 1. cbn [omap list_omap]. fold (fileBits line).
      destruct (charBit c); reflexivity.
Qed.

Lemma scanLoop_fit lines : forall bits,
  Forall (fun raw => (Z.of_nat (length raw) < MaxScanTokenSize)%Z) lines ->
  scanLoop lines bits = (bits ++ flat_map fileBits lines, None).
Proof.
  induction lines as [|raw lines IH]; intros bits Hfit; cbn [scanLoop flat_map].
  - rewrite app_nil_r. reflexivity.
  - apply Forall_cons in Hfit as [Hraw Hfit].
    destruct (Z.leb_spec MaxScanTokenSize (Z.of_nat (length raw))); [lia|].
    rewrite IH by assumption.
    rewrite lineBits_fileBits, fileBits_dropCR, <- app_assoc. reflexivity.
Qed.

Lemma scanLoop_too_long lines : forall bits,
  Exists (fun raw => (MaxScanTokenSize <= Z.of_nat (length raw))%Z) lines ->
  exists bits', scanLoop lines bits = (bits', Some ErrTooLong).
Proof.
  induction lines as [|raw lines IH]; intros bits Hlong.
  - inversion Hlong.
  - cbn [scanLoop].
    destruct (Z.leb_spec MaxScanTokenSize (Z.of_nat (length raw))) as [Hge|Hlt].
    + eauto.
    + apply IH. apply Exists_cons in Hlong as [Hraw|Hrest]; [lia|assumption].
Qed.

(** A file whose lines fit the scanner loads as its bits. *)
Lemma readBinaryFile_fit filename fs content :
  fs !! filename = Some (Data content) -> linesFit content ->
  readBinaryFile filename fs = (fileBits content, None).
Proof.
  intros Hfile Hfit. unfold readBinaryFile. rewrite Hfile.
  rewrite (scanLoop_fit _ [] Hfit), fileBits_splitLines. reflexivity.
Qed.

(** Whatever the file, a load that succeeds returns its bits. *)
Lemma readBinaryFile_success filename fs bits :
  readBinaryFile filename fs = (bits, None) ->
  exists content,
    fs !! filename = Some (Data content) ∧ bits = fileBits content.
Proof.
  unfold readBinaryFile. destruct (fs !! filename) as [[content|]|];
    [|discriminate..].
  intros Hscan. exists content. split; [reflexivity|].
  destruct (decide (Forall
    (fun raw => (Z.of_nat (length raw) < MaxScanTokenSize)%Z)
    (splitLines content))) as [Hfit|Hlong].
  - rewrite (scanLoop_fit _ [] Hfit), fileBits_splitLines in Hscan.
    cbn [app] in Hscan. congruence.
  - apply not_Forall_Exists in Hlong; [|intros raw; apply _].
    destruct (scanLoop_too_long (splitLines content) []) as [bits' Hb].
    + eapply Exists_impl; [exact Hlong|]. cbn. intros raw Hraw. lia.
    + rewrite Hb in Hscan. discriminate.
Qed.

End Loading.

(* ===================================================================== *)
(** * Checksum and mnemonic length *)
(* ===================================================================== *)

Section Checksum.

Local Open Scope nat_scope.

Lemma sampleWordList_length : length sampleWordList = 2048.
Proof. unfold sampleWordList. rewrite length_map, length_seq. reflexivity. Qed.

(** C2, as the claim states it, fails: 257 * 32 entropy bits ask for the
    first 257 bits of a hash that has 256, and [checksumBits] panics on the
    slice bound. *)
Lemma checksumBits_long_entropy_panics :
  (0 < length (replicate (257 * 32) false)
   ∧ length (replicate (257 * 32) false) mod 32 = 0)
  ∧ checksumBits (replicate (257 * 32) false) = None.
Proof.
  rewrite length_replicate. split; [split; [lia | reflexivity]|].
  apply checksumBits_panics. rewrite length_replicate. vm_compute. lia.
Qed.

(** C2 (amended). For entropy bits whose length is a positive multiple of
    32 and at most 8192 (so that [len/32] is within the 256 hash bits) the
    checksum is the first [len/32] bits of the SHA-256 of the packed bytes;
    for 256 bits the checksum has 8 bits, the combined sequence 264, and the
    mnemonic 24 words. *)
Theorem checksum_is_hash_prefix (entropyBits : list bool) :
  0 < length entropyBits ->
  length entropyBits mod 32 = 0 ->
  length entropyBits / 32 <= 256 ->
  (exists entropy,
      bitsToBytes entropyBits = Some entropy
      ∧ checksumBits entropyBits
        = Some (take (length entropyBits / 32)
                  (bytesToBits (sha256.Sum256 entropy))))
  ∧ (length entropyBits = 256 ->
     forall wordList, length wordList = 2048 ->
     exists csBits words,
       checksumBits entropyBits = Some csBits
       ∧ length csBits = 8
       ∧ length (entropyBits ++ csBits) = 264
       ∧ mnemonicWords (entropyBits ++ csBits) wordList = Some words
       ∧ length words = 24
       ∧ generateMnemonic (entropyBits ++ csBits) wordList
         = Some (Join words (lit " "))).
Proof.
  intros Hpos Hmod Hmax.
  destruct (checksumBits_defined entropyBits Hmax) as (entropy & He & Hcs & Hlen).
  split; [exists entropy; split; assumption|].
  intros H256 wordList Hwl.
  eexists. eexists. split; [exact Hcs|].
  assert (Hall : length (entropyBits
            ++ take (length entropyBits / 32)
                 (bytesToBits (sha256.Sum256 entropy))) = 264).
  { rewrite length_app, Hlen, H256. reflexivity. }
  split; [rewrite Hlen, H256; reflexivity|].
  split; [exact Hall|].
  split; [apply mnemonicWords_total; exact Hwl|].
  split; [rewrite length_map, length_seq, Hall; reflexivity|].
  apply generateMnemonic_total; exact Hwl.
Qed.

Lemma checksum_is_hash_prefix_witness :
  (0 < length (replicate 256 false)
   ∧ length (replicate 256 false) mod 32 = 0
   ∧ length (replicate 256 false) / 32 <= 256)
  ∧ exists csBits words,
      checksumBits (replicate 256 false) = Some csBits
      ∧ length csBits = 8
      ∧ mnemonicWords (replicate 256 false ++ csBits) sampleWordList
        = Some words
      ∧ length words = 24.
Proof.
  assert (H1 : 0 < length (replicate 256 false)) by (vm_compute; lia).
  assert (H2 : length (replicate 256 false) mod 32 = 0) by reflexivity.
  assert (H3 : length (replicate 256 false) / 32 <= 256) by (vm_compute; lia).
  split; [auto|].
  destruct (checksum_is_hash_prefix _ H1 H2 H3) as [_ H].
  destruct (H eq_refl sampleWordList sampleWordList_length)
    as (csBits & words & Hcs & Hl & _ & Hw & Hlw & _).
  exists csBits, words. auto.
Defined.

(** The scenario of the specification: 256 zero bits give the checksum
    01100110, the first eight bits of the SHA-256 of 32 zero bytes. *)
Example checksumBits_zero_entropy :
  checksumBits (replicate 256 false)
  = Some [false; true; true; false; false; true; true; false].
Proof. vm_compute. reflexivity. Qed.

End Checksum.

(* ===================================================================== *)
(** * Word lookups stay in bounds *)
(* ===================================================================== *)

Section Groups.

Local Open Scope nat_scope.

Lemma group11_drop bits i : group11 bits (S i) = group11 (drop 11 bits) i.
Proof.
  unfold group11. rewrite drop_drop. repeat f_equal; lia.
Qed.

Lemma groups_cover k : forall bits,
  length bits = 11 * k -> flat_map (group11 bits) (seq 0 k) = bits.
Proof.
  induction k as [|k IH]; intros bits Hlen.
  - destruct bits; [reflexivity | discriminate].
  - cbn [seq flat_map]. rewrite <- seq_shift, flat_map_concat_map, map_map.
    rewrite (map_ext _ (group11 (drop 11 bits)))
      by (intros i; apply group11_drop).
    rewrite <- flat_map_concat_map, IH by (rewrite length_drop; lia).
    unfold group11. rewrite drop_0. apply take_drop.
Qed.

(** C9. A bit sequence whose length is a multiple of 11 splits into
    consecutive 11-bit groups that cover it; [bitsToInt] of each group is
    in 0..2047, so each lookup in a word list of 2048 entries succeeds and
    [generateMnemonic] returns. *)
Theorem group_values_in_bounds (bits : list bool) (wordList : list gostring) :
  length bits mod 11 = 0 ->
  length wordList = 2048 ->
  flat_map (group11 bits) (seq 0 (length bits / 11)) = bits
  ∧ (forall i, i < length bits / 11 ->
       slice bits (i * 11) ((i + 1) * 11) = Some (group11 bits i)
       ∧ (0 <= bitsToInt (group11 bits i) <= 2047)%Z
       ∧ is_Some (lookupWord wordList (bitsToInt (group11 bits i))))
  ∧ is_Some (generateMnemonic bits wordList).
Proof.
  intros Hmod Hwl. split; [|split].
  - apply groups_cover. pose proof (Nat.div_mod_eq (length bits) 11). lia.
  - intros i Hi. destruct (group_in_range bits i Hi) as [Hslice Hlen].
    pose proof (bitsToInt_11 _ Hlen) as Hidx.
    split; [exact Hslice|]. split; [exact Hidx|].
    unfold lookupWord. rewrite decide_True by lia.
    apply lookup_lt_is_Some_2. lia.
  - rewrite (generateMnemonic_total bits wordList Hwl). eexists. reflexivity.
Qed.

Lemma group_values_in_bounds_witness :
  (length (replicate 22 true) mod 11 = 0 ∧ length sampleWordList = 2048)
  ∧ (0 <= bitsToInt (group11 (replicate 22 true) 1) <= 2047)%Z
  ∧ is_Some (generateMnemonic (replicate 22 true) sampleWordList).
Proof.
  assert (H1 : length (replicate 22 true) mod 11 = 0) by reflexivity.
  split; [split; [exact H1 | exact sampleWordList_length]|].
  destruct (group_values_in_bounds _ _ H1 sampleWordList_length)
    as (_ & Hgroups & Hsome).
  split; [|exact Hsome].
  destruct (Hgroups 1) as (_ & Hidx & _); [vm_compute; lia | exact Hidx].
Defined.

End Groups.

(* ===================================================================== *)
(** * Deriving the passphrase from binary.txt *)
(* ===================================================================== *)

Section Derivation.

Local Open Scope nat_scope.

(** A successful load, a checksum within the hash and 2048 words: the
    passphrase is the words of the 11-bit groups of entropy and checksum. *)
Lemma generatePassphrase_loaded fs wordList bits :
  readBinaryFile "binary.txt" fs = (bits, None) ->
  length bits / 32 <= 256 ->
  length wordList = 2048 ->
  exists csBits,
    checksumBits bits = Some csBits
    ∧ length csBits = length bits / 32
    ∧ generatePassphraseFromBinary fs wordList
      = Returned
          (Join (map (wordAt wordList (bits ++ csBits))
                   (seq 0 (length (bits ++ csBits) / 11)))
                (lit " ")).
Proof.
  intros Hread Hmax Hwl.
  destruct (checksumBits_defined bits Hmax) as (entropy & _ & Hcs & Hlen).
  eexists. split; [exact Hcs|]. split; [exact Hlen|].
  destruct (readBinaryFile_success _ _ _ Hread) as (content & Hfile & _).
  unfold generatePassphraseFromBinary.
  rewrite decide_False by (rewrite Hfile; discriminate).
  rewrite Hread, Hcs. cbn [orPanic mbind outcome_bind]. cbv zeta.
  rewrite (generateMnemonic_total _ wordList Hwl). reflexivity.
Qed.

Lemma group11_take bits k i :
  i < k -> group11 (take (11 * k) bits) i = group11 bits i.
Proof.
  intros Hi. unfold group11.
  rewrite !take_drop_commute, take_take. repeat f_equal. lia.
Qed.

(** The words depend on the full groups only. *)
Lemma mnemonicWords_full_groups bits wordList :
  length wordList = 2048 ->
  mnemonicWords (take (11 * (length bits / 11)) bits) wordList
  = mnemonicWords bits wordList.
Proof.
  intros Hwl. rewrite !mnemonicWords_total by assumption.
  assert (Hk : length (take (11 * (length bits / 11)) bits) / 11
               = length bits / 11).
  { rewrite length_take.
    pose proof (Nat.div_mod_eq (length bits) 11).
    rewrite Nat.min_l by lia. rewrite Nat.mul_comm. apply Nat.div_mul. lia. }
  rewrite Hk. f_equal. apply map_ext_in. intros i Hi. apply in_seq in Hi.
  unfold wordAt. rewrite group11_take by lia. reflexivity.
Qed.

(** C3. The passphrase is a function of the content of binary.txt: in two
    file systems that hold the same binary.txt, with the same word list,
    [generatePassphraseFromBinary] ends the same way with the same
    string. *)
Theorem passphrase_deterministic
    (fs1 fs2 : gmap string file) (wordList : list gostring) :
  fs1 !! "binary.txt"%string = fs2 !! "binary.txt"%string ->
  generatePassphraseFromBinary fs1 wordList
  = generatePassphraseFromBinary fs2 wordList.
Proof.
  intros Hsame. unfold generatePassphraseFromBinary, readBinaryFile.
  rewrite Hsame. reflexivity.
Qed.

Lemma passphrase_deterministic_witness :
  sampleStore !! "binary.txt"%string
  = <[ "notes.txt"%string := Data (lit "1") ]> sampleStore
      !! "binary.txt"%string
  ∧ generatePassphraseFromBinary sampleStore sampleWordList
    = generatePassphraseFromBinary
        (<[ "notes.txt"%string := Data (lit "1") ]> sampleStore)
        sampleWordList.
Proof.
  assert (H : sampleStore !! "binary.txt"%string
              = <[ "notes.txt"%string := Data (lit "1") ]> sampleStore
                  !! "binary.txt"%string).
  { rewrite lookup_insert_ne by discriminate. reflexivity. }
  split; [exact H | exact (passphrase_deterministic _ _ sampleWordList H)].
Defined.

Example sampleStore_passphrase :
  generatePassphraseFromBinary sampleStore sampleWordList
  = Returned (lit "babaaaaaaaa").
Proof. vm_compute. reflexivity. Qed.

(** C5, as the claim states it, fails: a line of 70000 characters does
    not fit the scanner's buffer of 65536 bytes, the scan stops with
    [ErrTooLong] and no bit of the line is loaded. *)
Lemma long_line_is_not_loaded :
  readBinaryFile "binary.txt" longLineStore = ([], Some ErrTooLong)
  ∧ fileBits (replicate (N.to_nat 70000) "0"%char) ≠ []
  ∧ generatePassphraseFromBinary longLineStore sampleWordList
    = Fatal (ReadFailure ErrTooLong).
Proof.
  split; [vm_compute; reflexivity|].
  split; [|vm_compute; reflexivity].
  replace (N.to_nat 70000) with (S (N.to_nat 69999)) by lia.
  discriminate.
Qed.

(** C5 (amended). When every line of binary.txt is shorter than 65536
    bytes, loading returns one bit per '0' or '1' of the file, in file
    order, and nothing for any other character; when binary.txt does not
    exist the derivation fails with the not-found message, which tells the
    user to generate the file first. *)
Theorem load_returns_file_bits
    (fs : gmap string file) (wordList : list gostring) :
  (forall content,
     fs !! "binary.txt"%string = Some (Data content) ->
     linesFit content ->
     readBinaryFile "binary.txt" fs = (fileBits content, None))
  ∧ (fs !! "binary.txt"%string = None ->
     generatePassphraseFromBinary fs wordList = Fatal NotFound
     ∧ message NotFound
       = "Error: binary.txt not found. Please generate it first with -b"%string).
Proof.
  split.
  - intros content Hfile Hfit. apply readBinaryFile_fit; assumption.
  - intros Hnone. unfold generatePassphraseFromBinary.
    rewrite decide_True by exact Hnone. split; reflexivity.
Qed.

Lemma sampleStore_linesFit : linesFit sampleContent.
Proof. unfold linesFit. cbn. repeat constructor. Qed.

Lemma load_returns_file_bits_witness :
  (sampleStore !! "binary.txt"%string = Some (Data sampleContent)
   ∧ linesFit sampleContent
   ∧ (∅ : gmap string file) !! "binary.txt"%string = None)
  ∧ readBinaryFile "binary.txt" sampleStore
    = ([true; false; true; false; false; false; false; false; false; false;
        false; true; false], None)
  ∧ generatePassphraseFromBinary ∅ sampleWordList = Fatal NotFound.
Proof.
  assert (H1 : sampleStore !! "binary.txt"%string
               = Some (Data sampleContent)) by reflexivity.
  assert (H3 : (∅ : gmap string file) !! "binary.txt"%string = None)
    by reflexivity.
  split; [split; [exact H1 | split; [exact sampleStore_linesFit | exact H3]]|].
  split.
  - exact (proj1 (load_returns_file_bits sampleStore sampleWordList)
             _ H1 sampleStore_linesFit).
  - exact (proj1 (proj2 (load_returns_file_bits ∅ sampleWordList) H3)).
Defined.

(** C6, as the claim states it, fails: a file without any '0' or '1'
    loads as the empty bit sequence without an error, and the derivation
    goes on to return the empty passphrase. *)
Lemma file_without_bits_is_accepted :
  fileBits noBitsContent = []
  ∧ readBinaryFile "binary.txt" noBitsStore = ([], None)
  ∧ generatePassphraseFromBinary noBitsStore sampleWordList = Returned [].
Proof. vm_compute. auto. Qed.

(** C6 (amended). When binary.txt holds no '0' or '1' (and its lines fit
    the scanner) the load returns the empty bit sequence without an error
    and the derivation returns the empty passphrase: nothing is reported. *)
Theorem empty_bits_derive_empty_passphrase
    (fs : gmap string file) (content : gostring)
    (wordList : list gostring) :
  fs !! "binary.txt"%string = Some (Data content) ->
  linesFit content ->
  fileBits content = [] ->
  readBinaryFile "binary.txt" fs = ([], None)
  ∧ generatePassphraseFromBinary fs wordList = Returned [].
Proof.
  intros Hfile Hfit Hbits.
  assert (Hread : readBinaryFile "binary.txt" fs = ([], None))
    by (rewrite <- Hbits; apply readBinaryFile_fit; assumption).
  split; [exact Hread|].
  unfold generatePassphraseFromBinary.
  rewrite decide_False by (rewrite Hfile; discriminate).
  rewrite Hread. reflexivity.
Qed.

Lemma noBitsStore_linesFit : linesFit noBitsContent.
Proof. unfold linesFit. cbn. repeat constructor. Qed.

Lemma empty_bits_derive_empty_passphrase_witness :
  (noBitsStore !! "binary.txt"%string = Some (Data noBitsContent)
   ∧ linesFit noBitsContent
   ∧ fileBits noBitsContent = [])
  ∧ readBinaryFile "binary.txt" noBitsStore = ([], None)
  ∧ generatePassphraseFromBinary noBitsStore sampleWordList = Returned [].
Proof.
  assert (H1 : noBitsStore !! "binary.txt"%string
               = Some (Data noBitsContent)) by reflexivity.
  assert (H3 : fileBits noBitsContent = []) by reflexivity.
  split; [split; [exact H1 | split; [exact noBitsStore_linesFit | exact H3]]|].
  exact (empty_bits_derive_empty_passphrase noBitsStore _ sampleWordList
           H1 noBitsStore_linesFit H3).
Defined.

(** C10, as the claim states it, fails: 257 * 32 bits load without an
    error, and the derivation panics on the checksum slice instead of
    running to completion. *)
Lemma long_entropy_derivation_panics :
  readBinaryFile "binary.txt" longEntropyStore
  = (replicate (257 * 32) false, None)
  ∧ length sampleWordList = 2048
  ∧ generatePassphraseFromBinary longEntropyStore sampleWordList = Panicked.
Proof.
  assert (Hread : readBinaryFile "binary.txt" longEntropyStore
                  = (replicate (257 * 32) false, None)).
  { rewrite <- fileBits_zeros. apply readBinaryFile_fit.
    - apply lookup_singleton_eq.
    - unfold linesFit. rewrite splitLines_zeros by lia.
      constructor; [|constructor].
      rewrite length_replicate. unfold MaxScanTokenSize. lia. }
  split; [exact Hread|]. split; [exact sampleWordList_length|].
  unfold generatePassphraseFromBinary, longEntropyStore.
  rewrite decide_False by (rewrite lookup_singleton_eq; discriminate).
  fold longEntropyStore. rewrite Hread.
  rewrite checksumBits_panics; [reflexivity|].
  rewrite length_replicate. vm_compute. lia.
Qed.

(** C10 (amended). For every loaded bit sequence of length [n] with
    [n/32 <= 256] (that is, n at most 8223), whether or not [n] is a
    multiple of 32 or the combined length a multiple of 11, the derivation
    returns: the checksum has [n/32] bits, the mnemonic has
    [(n + n/32) / 11] words, and the bits after the last full 11-bit group
    play no part. *)
Theorem derivation_completes
    (fs : gmap string file) (wordList : list gostring) (bits : list bool) :
  readBinaryFile "binary.txt" fs = (bits, None) ->
  length bits / 32 <= 256 ->
  length wordList = 2048 ->
  exists csBits words,
    checksumBits bits = Some csBits
    ∧ length csBits = length bits / 32
    ∧ mnemonicWords (bits ++ csBits) wordList = Some words
    ∧ length words = (length bits + length bits / 32) / 11
    ∧ generatePassphraseFromBinary fs wordList
      = Returned (Join words (lit " "))
    ∧ mnemonicWords (take (11 * length words) (bits ++ csBits)) wordList
      = Some words.
Proof.
  intros Hread Hmax Hwl.
  destruct (generatePassphrase_loaded fs wordList bits Hread Hmax Hwl)
    as (csBits & Hcs & Hlen & Hrun).
  exists csBits. eexists.
  split; [exact Hcs|]. split; [exact Hlen|].
  split; [apply mnemonicWords_total; exact Hwl|].
  assert (Hwords : length (map (wordAt wordList (bits ++ csBits))
                     (seq 0 (length (bits ++ csBits) / 11)))
                   = length (bits ++ csBits) / 11)
    by (rewrite length_map, length_seq; reflexivity).
  split; [rewrite Hwords, length_app, Hlen; reflexivity|].
  split; [exact Hrun|].
  rewrite Hwords, mnemonicWords_full_groups by exact Hwl.
  apply mnemonicWords_total; exact Hwl.
Qed.

Lemma derivation_completes_witness :
  (readBinaryFile "binary.txt" sampleStore
   = ([true; false; true; false; false; false; false; false; false; false;
       false; true; false], None)
   ∧ 13 / 32 <= 256
   ∧ length sampleWordList = 2048)
  ∧ exists words,
      generatePassphraseFromBinary sampleStore sampleWordList
      = Returned (Join words (lit " "))
      ∧ length words = (13 + 13 / 32) / 11.
Proof.
  assert (H1 : readBinaryFile "binary.txt" sampleStore
    = ([true; false; true; false; false; false; false; false; false; false;
        false; true; false], None)) by reflexivity.
  assert (H2 : 13 / 32 <= 256) by (vm_compute; lia).
  split; [split; [exact H1 | split; [exact H2 | exact sampleWordList_length]]|].
  destruct (derivation_completes sampleStore sampleWordList _ H1 H2
              sampleWordList_length)
    as (csBits & words & _ & _ & _ & Hlen & Hrun & _).
  exists words. split; [exact Hrun | exact Hlen].
Defined.

End Derivation.

(* ===================================================================== *)
(** * The layout of binary.txt *)
(* ===================================================================== *)

Section Layout.

Local Open Scope nat_scope.

Lemma mod11_inside k j : j < 11 -> (11 * k + j) mod 11 = j.
Proof. intros Hj. symmetry. apply (Nat.mod_unique _ 11 k j); lia. Qed.

Lemma succ_mod6 k :
  S k mod 6 = if S (k mod 6) =? 6 then 0 else S (k mod 6).
Proof.
  pose proof (Nat.div_mod_eq k 6) as Hk.
  pose proof (Nat.mod_upper_bound k 6) as Hlt.
  destruct (Nat.eqb_spec (S (k mod 6)) 6) as [He|Hne]; symmetry.
  - apply (Nat.mod_unique _ 6 (S (k / 6))); lia.
  - apply (Nat.mod_unique _ 6 (k / 6)); lia.
Qed.

(** Inside a group the loop only copies bits. *)
Lemma writeBits_inside bits : forall k j groupCount rest,
  j + length bits <= 10 -> groupCount < 6 ->
  writeBits (11 * k + j) groupCount (bits ++ rest)
  = map bitChar bits ++ writeBits (11 * k + j + length bits) groupCount rest.
Proof.
  induction bits as [|b bits IH]; intros k j groupCount rest Hj Hgc;
    cbn [app length map writeBits] in *.
  - f_equal. lia.
  - replace (11 * k + j + 1) with (11 * k + (j + 1)) by lia.
    rewrite mod11_inside by lia.
    destruct (Nat.eqb_spec (j + 1) 0) as [|_]; [lia|].
    destruct (Nat.eqb_spec groupCount 6) as [|_]; [lia|].
    cbn [app]. f_equal.
    replace (S (11 * k + j)) with (11 * k + S j) by lia.
    rewrite IH by lia. f_equal. f_equal. lia.
Qed.

(** The eleventh bit of a group closes it, and every sixth group closes
    the line. *)
Lemma writeBits_group_end k b rest :
  writeBits (11 * k + 10) (k mod 6) (b :: rest)
  = bitChar b :: " "%char
      :: (if (S k mod 6 =? 0) then ["010"%char] else [])
      ++ writeBits (11 * S k) (S k mod 6) rest.
Proof.
  cbn [writeBits].
  replace (11 * k + 10 + 1) with (11 * S k + 0) by lia.
  rewrite mod11_inside by lia. cbn [Nat.eqb app].
  replace (S (11 * k + 10)) with (11 * S k) by lia.
  rewrite (succ_mod6 k). change (S (k mod 6) =? 6) with (k mod 6 =? 5).
  destruct (k mod 6 =? 5); reflexivity.
Qed.

Lemma writeBits_layout n : forall k bits,
  length bits / 11 = n ->
  writeBits (11 * k) (k mod 6) bits = layoutGroups lastLineHasGroup n k bits.
Proof.
  induction n as [|n IH]; intros k bits Hn;
    pose proof (Nat.div_mod_eq (length bits) 11) as Hdm;
    pose proof (Nat.mod_upper_bound (length bits) 11) as Hlt;
    pose proof (Nat.mod_upper_bound k 6) as Hk6;
    cbn [layoutGroups].
  - pose proof (writeBits_inside bits k 0 (k mod 6) []) as Hin.
    rewrite app_nil_r, !Nat.add_0_r in Hin. rewrite Hin by lia.
    cbn [writeBits]. unfold lastLineHasGroup.
    destruct (k mod 6 =? 0); reflexivity.
  - assert (Hlen : 11 <= length bits) by lia.
    rewrite <- (take_drop 11 bits) at 1.
    assert (Htake : length (take 11 bits) = 11)
      by (rewrite length_take; lia).
    destruct (exists_last (l := take 11 bits)) as (b0 & g & Hg);
      [intros Hnil; rewrite Hnil in Htake; discriminate|].
    rewrite Hg in *. rewrite length_app in Htake. cbn [length] in Htake.
    rewrite <- app_assoc. cbn [app].
    pose proof (writeBits_inside b0 k 0 (k mod 6) (g :: drop 11 bits)) as Hin.
    rewrite !Nat.add_0_r in Hin. rewrite Hin by lia.
    replace (length b0) with 10 by lia.
    rewrite writeBits_group_end, map_app. cbn [map].
    rewrite <- app_assoc. cbn [app]. do 4 f_equal.
    apply IH. rewrite length_drop. symmetry.
    apply (Nat.div_unique _ 11 n (length bits mod 11)); lia.
Qed.

Lemma layouts_agree n : forall k bits,
  (n + k) mod 6 <> 0 ->
  layoutGroups lastLinePartial n k bits
  = layoutGroups lastLineHasGroup n k bits.
Proof.
  induction n as [|n IH]; intros k bits Hk; cbn [layoutGroups].
  - unfold lastLinePartial, lastLineHasGroup.
    destruct (Nat.eqb_spec (k mod 6) 0); [contradiction | reflexivity].
  - rewrite IH; [reflexivity|]. replace (n + S k) with (S n + k) by lia.
    exact Hk.
Qed.

(** C4, as the claim states it, fails: the 8 bits of a one-byte buffer
    make a partial last line, and the file ends without a newline. *)
Lemma one_byte_file_lacks_newline :
  writeBinaryFile "binary.txt" [0%Z] ∅
  = ({[ "binary.txt"%string := Data (lit "00000000") ]}, None)
  ∧ layoutSpecified (bytesToBits [0%Z]) = lit "00000000" ++ ["010"%char].
Proof. split; reflexivity. Qed.

(** C4 (amended). The file holds the bits as '0' and '1' in bit order,
    each complete group of 11 followed by a space, a newline after every
    sixth group, then the left-over bits, and a final newline when the last
    line holds at least one complete group; for the 256 bits of a 32-byte
    entropy this is the layout of the specification. *)
Theorem writeBinaryFile_layout
    (filename : string) (entropy : list Z) (fs : gmap string file) :
  fs !! filename ≠ Some Denied ->
  writeBinaryFile filename entropy fs
  = (<[filename := Data (layoutWritten (bytesToBits entropy))]> fs, None)
  ∧ (forall bits, writeBits 0 0 bits = layoutWritten bits)
  ∧ (length entropy = 32 ->
     layoutWritten (bytesToBits entropy)
     = layoutSpecified (bytesToBits entropy)).
Proof.
  intros Hfile.
  assert (Hall : forall bits, writeBits 0 0 bits = layoutWritten bits)
    by (intros bits; apply (writeBits_layout _ 0 bits eq_refl)).
  split; [|split; [exact Hall|]].
  - unfold writeBinaryFile. rewrite Hall.
    destruct (fs !! filename) as [[content|]|]; [reflexivity| |reflexivity].
    contradiction.
  - intros H32. unfold layoutWritten, layoutSpecified.
    rewrite length_bytesToBits, H32. symmetry. apply layouts_agree.
    vm_compute. discriminate.
Qed.

Lemma writeBinaryFile_layout_witness :
  (∅ : gmap string file) !! "binary.txt"%string ≠ Some Denied
  ∧ writeBinaryFile "binary.txt" [165; 0; 255]%Z ∅
    = ({[ "binary.txt"%string :=
            Data (lit "10100101000 00000111111 11" ++ ["010"%char]) ]},
       None).
Proof.
  assert (H : (∅ : gmap string file) !! "binary.txt"%string ≠ Some Denied)
    by discriminate.
  split; [exact H|].
  rewrite (proj1 (writeBinaryFile_layout "binary.txt" [165; 0; 255]%Z ∅ H)).
  reflexivity.
Defined.

(** What is written loads back: the layout adds only spaces and
    newlines. *)
Lemma fileBits_layoutGroups trailing n : forall k bits,
  n <= length bits / 11 ->
  fileBits (layoutGroups trailing n k bits) = bits.
Proof.
  assert (Happ : forall l l', fileBits (l ++ l') = fileBits l ++ fileBits l')
    by (intros; apply omap_app).
  assert (Hbits : forall l, fileBits (map bitChar l) = l).
  { induction l as [|[] l IHl]; [reflexivity|..];
      unfold fileBits in *; cbn; rewrite IHl; reflexivity. }
  assert (Hsp : forall l, fileBits (" "%char :: l) = fileBits l)
    by reflexivity.
  assert (Hnl : forall l, fileBits ("010"%char :: l) = fileBits l)
    by reflexivity.
  induction n as [|n IH]; intros k bits Hn; cbn [layoutGroups];
    rewrite Happ, Hbits.
  - destruct (trailing k bits); [rewrite Hnl|]; apply app_nil_r.
  - assert (Hrest : n <= length (drop 11 bits) / 11).
    { rewrite length_drop.
      pose proof (Nat.div_mod_eq (length bits) 11).
      pose proof (Nat.mod_upper_bound (length bits) 11).
      apply Nat.div_le_lower_bound; lia. }
    rewrite Hsp. destruct (S k mod 6 =? 0); cbn [app]; [rewrite Hnl|];
      rewrite (IH _ _ Hrest); apply take_drop.
Qed.

(** Loading a file that [writeBinaryFile] wrote returns the bits of the
    entropy. *)
Lemma fileBits_layoutWritten bits : fileBits (layoutWritten bits) = bits.
Proof. apply fileBits_layoutGroups. reflexivity. Qed.

End Layout.

(* ===================================================================== *)
(** * Token inspection *)
(* ===================================================================== *)

Section Inspection.

Local Open Scope nat_scope.

Lemma isBinary_bits s :
  isBinary s = true <-> Forall isBit s ∧ 0 < length s.
Proof.
  unfold isBinary. rewrite andb_true_iff, forallb_forall, Nat.ltb_lt.
  rewrite Forall_forall. split; intros [Hall Hlen]; (split; [|exact Hlen]).
  - intros c Hc. apply list_elem_of_In, Hall in Hc. unfold isBit.
    destruct (Ascii.eqb_spec c "0"); [auto|].
    destruct (Ascii.eqb_spec c "1"); [auto | discriminate].
  - intros c Hc. apply list_elem_of_In, Hall in Hc.
    destruct Hc as [-> | ->]; reflexivity.
Qed.

Lemma ToLower_plain s : Forall isPlain s -> ToLower s = s.
Proof.
  induction 1 as [|c s [Hc _] _ IH]; [reflexivity|].
  unfold ToLower in *. cbn [map]. rewrite IH, Hc. reflexivity.
Qed.

Lemma trimLeft_plain s : Forall isPlain s -> trimLeft s = s.
Proof.
  destruct 1 as [|c s [_ Hc] _]; [reflexivity|].
  cbn [trimLeft]. rewrite Hc. reflexivity.
Qed.

(** The normalisation of [showWordInfo] keeps a string of plain
    characters. *)
Lemma normalise_plain s : Forall isPlain s -> TrimSpace (ToLower s) = s.
Proof.
  intros Hs. rewrite (ToLower_plain s Hs). unfold TrimSpace.
  rewrite (trimLeft_plain s Hs).
  rewrite trimLeft_plain by (apply Forall_rev; exact Hs).
  apply rev_involutive.
Qed.

Lemma bits_plain s : Forall isBit s -> Forall isPlain s.
Proof.
  intros Hs. eapply Forall_impl; [exact Hs|].
  intros c [-> | ->]; split; reflexivity.
Qed.

Lemma lowerLetter_plain c :
  isLowerLetter c = true -> isPlain c ∧ ¬ isBit c.
Proof.
  destruct c as [[] [] [] [] [] [] [] []]; intros Hc;
    first [discriminate Hc
          | split; [split; reflexivity | intros [H | H]; discriminate H]].
Qed.

(** A word of lower-case letters is kept by the normalisation and is not
    a binary literal. *)
Lemma lowerWord_normal w :
  forallb isLowerLetter w = true ->
  TrimSpace (ToLower w) = w ∧ isBinary w = false.
Proof.
  intros Hw. rewrite forallb_forall in Hw. split.
  - apply normalise_plain, Forall_forall. intros c Hc.
    apply list_elem_of_In, Hw, lowerLetter_plain in Hc. tauto.
  - destruct (isBinary w) eqn:Hbin; [|reflexivity].
    apply isBinary_bits in Hbin as [Hbits Hpos].
    destruct w as [|c w]; [cbn in Hpos; lia|].
    apply Forall_cons in Hbits as [Hc _].
    destruct (lowerLetter_plain c) as [_ Hnb]; [apply Hw; left; reflexivity|].
    contradiction.
Qed.

(** [binaryToInt] reads the characters as [bitsToInt] reads bits. *)
Lemma binaryToInt_bits bin : binaryToInt bin = bitsToInt (map isOne bin).
Proof.
  unfold binaryToInt, bitsToInt. generalize 0%Z.
  induction bin as [|c bin IH]; intros n; cbn [fold_left map]; [reflexivity|].
  apply IH.
Qed.

Lemma binaryToInt_11 bin :
  length bin = 11 -> (0 <= binaryToInt bin <= 2047)%Z.
Proof.
  intros Hlen. rewrite binaryToInt_bits. apply bitsToInt_11.
  rewrite length_map. exact Hlen.
Qed.

(** A binary literal of exactly eleven digits after padding is looked
    up. *)
Lemma showWordInfo_eleven input padded wordList :
  TrimSpace (ToLower input) = input ->
  isBinary input = true ->
  (if decide (length input < 11) then Sprintf_011s input else input) = padded ->
  length padded = 11 ->
  length wordList = 2048 ->
  exists word,
    wordList !! Z.to_nat (binaryToInt padded) = Some word
    ∧ showWordInfo input wordList
      = Some (BinaryInfo padded (binaryToInt padded) word).
Proof.
  intros Hnorm Hbin Hpad Hlen Hwl.
  pose proof (binaryToInt_11 padded Hlen) as Hidx.
  destruct (lookup_lt_is_Some_2 wordList (Z.to_nat (binaryToInt padded)))
    as [word Hword]; [lia|].
  exists word. split; [exact Hword|].
  unfold showWordInfo. rewrite Hnorm, Hbin. cbv zeta. rewrite Hpad.
  rewrite decide_False by (rewrite Hlen; auto).
  rewrite decide_False by lia.
  unfold lookupWord. rewrite decide_True by lia. rewrite Hword. reflexivity.
Qed.

Lemma bitsValue_zeros k : bitsValue (replicate k false) 0 = 0%Z.
Proof. induction k as [|k IH]; [reflexivity | exact IH]. Qed.

(** Reading the digits from the left gives the number they write. *)
Lemma bitsValue_binaryValue s : forall n,
  bitsValue (map isOne s) n
  = (n * 2 ^ Z.of_nat (length s) + binaryValue s)%Z.
Proof.
  induction s as [|c s IH]; intros n;
    cbn [map bitsValue fold_left length binaryValue].
  - lia.
  - fold (bitsValue (map isOne s) (2 * n + Z.b2z (isOne c))).
    rewrite IH, Nat2Z.inj_succ, Z.pow_succ_r by lia.
    destruct (isOne c); cbn [Z.b2z]; lia.
Qed.

Lemma binaryValue_zeros k s :
  binaryValue (replicate k "0"%char ++ s) = binaryValue s.
Proof.
  induction k as [|k IH]; [reflexivity|].
  cbn [replicate app binaryValue]. rewrite IH. reflexivity.
Qed.

(** Up to 62 digits [binaryToInt] does not wrap: it returns the number the
    literal writes, with or without zeros in front. *)
Lemma binaryToInt_value s :
  length s <= 62 -> binaryToInt s = binaryValue s.
Proof.
  intros Hlen. rewrite binaryToInt_bits.
  destruct (bitsToInt_value (map isOne s)) as [-> _];
    [rewrite length_map; exact Hlen|].
  rewrite bitsValue_binaryValue. lia.
Qed.

Lemma binaryToInt_padded input :
  length input <= 11 ->
  binaryToInt (replicate (11 - length input) "0"%char ++ input)
  = binaryValue input.
Proof.
  intros Hlen. rewrite binaryToInt_value, binaryValue_zeros; [reflexivity|].
  rewrite length_app, length_replicate. lia.
Qed.

(** C7, as the claim states it, fails: a literal of twelve digits, here of
    value 1, is rejected with the message that the binary must be at most
    11 bits, not as out of range. *)
Lemma twelve_digits_not_out_of_range :
  (isBinary (lit "000000000001") = true
   ∧ 11 < length (lit "000000000001")
   ∧ binaryValue (lit "000000000001") = 1%Z)
  ∧ showWordInfo (lit "000000000001") sampleWordList = Some ErrTooManyBits
  ∧ showWordInfo (lit "000000000001") sampleWordList ≠ Some ErrOutOfRange.
Proof.
  assert (H : showWordInfo (lit "000000000001") sampleWordList
              = Some ErrTooManyBits) by (vm_compute; reflexivity).
  split; [split; [reflexivity | split; [cbn; lia | reflexivity]]|].
  split; [exact H | rewrite H; discriminate].
Qed.

(** C7 (amended). For a binary literal: more than 11 characters are
    rejected with the message that the binary must be at most 11 bits; 1 to
    10 characters are padded with zeros on the left to 11 and always
    accepted, and the index reported is the number the literal writes,
    with the word at that index. *)
Theorem binary_token_boundary (input : gostring) (wordList : list gostring) :
  isBinary input = true ->
  length wordList = 2048 ->
  (11 < length input -> showWordInfo input wordList = Some ErrTooManyBits)
  ∧ (1 <= length input <= 10 ->
     exists word,
       length (replicate (11 - length input) "0"%char ++ input) = 11
       ∧ binaryToInt (replicate (11 - length input) "0"%char ++ input)
         = binaryValue input
       ∧ (0 <= binaryValue input <= 2047)%Z
       ∧ wordList !! Z.to_nat (binaryValue input) = Some word
       ∧ showWordInfo input wordList
         = Some (BinaryInfo
                   (replicate (11 - length input) "0"%char ++ input)
                   (binaryValue input)
                   word)).
Proof.
  intros Hbin Hwl.
  pose proof (proj1 (isBinary_bits input) Hbin) as [Hbits Hpos].
  assert (Hnorm : TrimSpace (ToLower input) = input)
    by (apply normalise_plain, bits_plain; exact Hbits).
  split.
  - intros Hlong. unfold showWordInfo. rewrite Hnorm, Hbin. cbv zeta.
    rewrite (decide_False (P := length input < 11)) by lia.
    rewrite decide_True by lia. reflexivity.
  - intros Hshort.
    assert (Hlen : length (replicate (11 - length input) "0"%char ++ input)
                   = 11)
      by (rewrite length_app, length_replicate; lia).
    assert (Hpad : (if decide (length input < 11)
                    then Sprintf_011s input else input)
                   = replicate (11 - length input) "0"%char ++ input)
      by (rewrite decide_True by lia; reflexivity).
    assert (Hval : binaryToInt (replicate (11 - length input) "0"%char ++ input)
                   = binaryValue input)
      by (apply binaryToInt_padded; lia).
    destruct (showWordInfo_eleven input _ wordList Hnorm Hbin Hpad Hlen Hwl)
      as (word & Hword & Hshow).
    pose proof (binaryToInt_11 _ Hlen) as Hidx.
    rewrite Hval in Hword, Hshow, Hidx.
    exists word. split; [exact Hlen|]. split; [exact Hval|].
    split; [exact Hidx|]. split; assumption.
Qed.

Lemma binary_token_boundary_witness :
  (isBinary (lit "110") = true ∧ length sampleWordList = 2048
   ∧ 1 <= length (lit "110") <= 10)
  ∧ binaryValue (lit "110") = 6%Z
  ∧ showWordInfo (lit "110") sampleWordList
    = Some (BinaryInfo (lit "00000000110") 6 (lit "aaaaaaaabba")).
Proof.
  assert (H1 : isBinary (lit "110") = true) by reflexivity.
  assert (H3 : 1 <= length (lit "110") <= 10) by (cbn; lia).
  split; [split; [exact H1 | split; [exact sampleWordList_length | exact H3]]|].
  split; [reflexivity|].
  destruct (proj2 (binary_token_boundary (lit "110") sampleWordList H1
                     sampleWordList_length) H3)
    as (word & _ & _ & _ & Hword & Hshow).
  rewrite Hshow. vm_compute in Hword. injection Hword as <-. reflexivity.
Defined.

Example showWordInfo_zzz :
  showWordInfo (lit "zzz") sampleWordList = Some (ErrNeither (lit "zzz")).
Proof. vm_compute. reflexivity. Qed.

(** The index of the first match is the index of the word when no word
    occurs twice. *)
Lemma findWord_NoDup wordList : forall i j word,
  NoDup wordList -> wordList !! i = Some word ->
  findWord j wordList word = Some (j + i).
Proof.
  induction wordList as [|w rest IH]; intros i j word Hnd Hi; [discriminate|].
  apply NoDup_cons in Hnd as [Hw Hnd]. cbn [findWord].
  destruct i as [|i]; cbn in Hi.
  - injection Hi as ->. rewrite decide_True by reflexivity.
    f_equal. lia.
  - rewrite decide_False.
    + rewrite (IH i (S j) word Hnd Hi). f_equal. lia.
    + intros ->. apply Hw. apply list_elem_of_lookup. eauto.
Qed.

(** [%011b] of an index below 2048: eleven binary digits whose value is
    the index. *)
Lemma binaryDigits_value p : forall tail,
  bitsValue (map isOne (binaryDigits p tail)) 0
  = bitsValue (map isOne tail) (Z.pos p).
Proof.
  induction p as [q IH|q IH|]; intros tail; cbn [binaryDigits].
  - rewrite IH. reflexivity.
  - rewrite IH. reflexivity.
  - reflexivity.
Qed.

Lemma binaryDigits_length p : forall tail,
  length (binaryDigits p tail) = Pos.size_nat p + length tail.
Proof.
  induction p as [q IH|q IH|]; intros tail; cbn [binaryDigits Pos.size_nat];
    [rewrite IH; cbn [length]; lia.. | reflexivity].
Qed.

Lemma binaryDigits_bits p : forall tail,
  Forall isBit tail -> Forall isBit (binaryDigits p tail).
Proof.
  induction p as [q IH|q IH|]; intros tail Htail; cbn [binaryDigits];
    [apply IH; constructor; [right|]; auto
    |apply IH; constructor; [left|]; auto
    |constructor; [right|]; auto].
Qed.

Lemma size_nat_bound p : forall n,
  (Z.pos p < 2 ^ Z.of_nat n)%Z -> Pos.size_nat p <= n.
Proof.
  induction p as [q IH|q IH|]; intros [|n] Hp; cbn [Pos.size_nat];
    try (cbn in Hp; lia);
    rewrite Nat2Z.inj_succ, Z.pow_succ_r in Hp by lia;
    apply le_n_S, IH; lia.
Qed.

(** Zeros on the left change neither the digits' nature nor their value. *)
Lemma zeroPad_digits digits :
  Forall isBit digits -> 0 < length digits <= 11 ->
  isBinary (zeroPad 11 digits) = true
  ∧ length (zeroPad 11 digits) = 11
  ∧ binaryToInt (zeroPad 11 digits) = bitsValue (map isOne digits) 0.
Proof.
  intros Hbits Hlen. unfold zeroPad. split; [|split].
  - apply isBinary_bits. split.
    + apply Forall_app. split; [|exact Hbits].
      apply Forall_replicate. left. reflexivity.
    + rewrite length_app. lia.
  - rewrite length_app, length_replicate. lia.
  - rewrite binaryToInt_bits.
    destruct (bitsToInt_value
                (map isOne (replicate (11 - length digits) "0"%char ++ digits)))
      as [-> _].
    + rewrite length_map, length_app, length_replicate. lia.
    + rewrite map_app. unfold bitsValue at 1. rewrite fold_left_app.
      fold (bitsValue (map isOne (replicate (11 - length digits) "0"%char)) 0).
      replace (map isOne (replicate (11 - length digits) "0"%char))
        with (replicate (11 - length digits) false)
        by (induction (11 - length digits) as [|k IHk];
            [reflexivity | cbn; f_equal; exact IHk]).
      rewrite bitsValue_zeros. reflexivity.
Qed.

(** [%011b] of an index below 2048: eleven binary digits whose value is
    the index. *)
Lemma Sprintf_011b_digits i :
  i < 2048 ->
  isBinary (Sprintf_011b i) = true
  ∧ length (Sprintf_011b i) = 11
  ∧ binaryToInt (Sprintf_011b i) = Z.of_nat i.
Proof.
  intros Hi. unfold Sprintf_011b.
  destruct (N.of_nat i) as [|p] eqn:Hp.
  - assert (i = 0) as -> by lia.
    destruct (zeroPad_digits ["0"%char]) as (H1 & H2 & H3);
      [repeat constructor; left; reflexivity | cbn; lia |].
    auto.
  - assert (Hv : Z.pos p = Z.of_nat i) by lia.
    destruct (zeroPad_digits (binaryDigits p [])) as (H1 & H2 & H3).
    + apply binaryDigits_bits. constructor.
    + rewrite binaryDigits_length. cbn [length].
      pose proof (size_nat_bound p 11) as Hsize.
      assert (1 <= Pos.size_nat p) by (destruct p; cbn; lia).
      change (2 ^ Z.of_nat 11)%Z with 2048%Z in Hsize. lia.
    + rewrite binaryDigits_value in H3. cbn [map bitsValue fold_left] in H3.
      rewrite <- Hv. auto.
Qed.

(** C8. For every index [i] in 0..2047 of a well-formed word list:
    inspecting the word at [i] reports [i] and its binary form on 11
    zero-padded digits, and inspecting that binary form reports [i] and the
    word at [i]. *)
Theorem inspect_round_trip (wordList : list gostring) (i : nat) :
  wellFormedWordList wordList ->
  i <= 2047 ->
  exists word,
    wordList !! i = Some word
    ∧ showWordInfo word wordList = Some (WordInfo word i (Sprintf_011b i))
    ∧ length (Sprintf_011b i) = 11
    ∧ isBinary (Sprintf_011b i) = true
    ∧ binaryToInt (Sprintf_011b i) = Z.of_nat i
    ∧ showWordInfo (Sprintf_011b i) wordList
      = Some (BinaryInfo (Sprintf_011b i) (Z.of_nat i) word).
Proof.
  intros (Hwl & Hnd & Hwords) Hi.
  destruct (lookup_lt_is_Some_2 wordList i) as [word Hword]; [lia|].
  destruct (Sprintf_011b_digits i) as (Hbin & Hlen & Hval); [lia|].
  exists word. split; [exact Hword|].
  split; [|split; [exact Hlen | split; [exact Hbin | split; [exact Hval|]]]].
  - rewrite Forall_forall in Hwords.
    destruct (lowerWord_normal word) as [Hnorm Hnb];
      [apply Hwords, list_elem_of_lookup; eauto|].
    unfold showWordInfo. rewrite Hnorm, Hnb.
    rewrite (findWord_NoDup wordList i 0 word Hnd Hword). reflexivity.
  - pose proof (proj1 (isBinary_bits _) Hbin) as [Hbits _].
    assert (Hnorm : TrimSpace (ToLower (Sprintf_011b i)) = Sprintf_011b i)
      by (apply normalise_plain, bits_plain; exact Hbits).
    assert (Hpad : (if decide (length (Sprintf_011b i) < 11)
                    then Sprintf_011s (Sprintf_011b i) else Sprintf_011b i)
                   = Sprintf_011b i)
      by (rewrite decide_False by lia; reflexivity).
    destruct (showWordInfo_eleven _ _ wordList Hnorm Hbin Hpad Hlen Hwl)
      as (word' & Hword' & Hshow).
    rewrite Hshow, Hval. rewrite Hval, Nat2Z.id in Hword'. congruence.
Qed.

Lemma sampleWord_spells i :
  i < 2048 ->
  forallb isLowerLetter (sampleWord i) = true
  ∧ bitsToInt (map (fun c => Ascii.eqb c "b") (sampleWord i)) = Z.of_nat i.
Proof.
  intros Hi. unfold sampleWord. split.
  - induction (Sprintf_011b i) as [|c s IH]; [reflexivity|].
    cbn [map forallb]. rewrite IH. destruct (Ascii.eqb c "1"); reflexivity.
  - destruct (Sprintf_011b_digits i Hi) as (_ & _ & <-).
    rewrite binaryToInt_bits, map_map. f_equal. apply map_ext.
    intros c. unfold isOne. destruct (Ascii.eqb c "1"); reflexivity.
Qed.

Lemma sampleWordList_wellFormed : wellFormedWordList sampleWordList.
Proof.
  split; [exact sampleWordList_length|]. split.
  - unfold sampleWordList. apply (NoDup_fmap_2_strong _ (seq 0 2048)).
    + intros x y Hx Hy Heq.
      apply list_elem_of_In, in_seq in Hx. apply list_elem_of_In, in_seq in Hy.
      destruct (sampleWord_spells x) as [_ Hvx]; [lia|].
      destruct (sampleWord_spells y) as [_ Hvy]; [lia|].
      rewrite Heq in Hvx. lia.
    + apply NoDup_ListNoDup, seq_NoDup.
  - unfold sampleWordList. apply Forall_forall. intros w Hw.
    apply list_elem_of_In, in_map_iff in Hw as (i & <- & Hi).
    apply in_seq in Hi. apply sampleWord_spells. lia.
Qed.

Lemma inspect_round_trip_witness :
  (wellFormedWordList sampleWordList ∧ 5 <= 2047)
  ∧ showWordInfo (lit "aaaaaaaabab") sampleWordList
    = Some (WordInfo (lit "aaaaaaaabab") 5 (lit "00000000101"))
  ∧ showWordInfo (lit "00000000101") sampleWordList
    = Some (BinaryInfo (lit "00000000101") 5 (lit "aaaaaaaabab")).
Proof.
  assert (H2 : 5 <= 2047) by lia.
  split; [split; [exact sampleWordList_wellFormed | exact H2]|].
  destruct (inspect_round_trip sampleWordList 5 sampleWordList_wellFormed H2)
    as (word & Hword & Hshow1 & _ & _ & _ & Hshow2).
  vm_compute in Hword. injection Hword as <-.
  split; [exact Hshow1 | exact Hshow2].
Defined.

End Inspection.

(* ===================================================================== *)
(** * Further properties of the bit codec *)
(* ===================================================================== *)

Section CodecProperties.

Local Open Scope nat_scope.

(** Bits that are not set leave the buffer as it is. *)
Lemma loop_false k : forall i out,
  bitsToBytes_loop i (replicate k false) out = Some out.
Proof.
  induction k as [|k IH]; intros i out; [reflexivity|].
  cbn [replicate bitsToBytes_loop mbind option_bind]. apply IH.
Qed.

Lemma loop_app l1 : forall i l2 out,
  bitsToBytes_loop i (l1 ++ l2) out
  = out' ← bitsToBytes_loop i l1 out; bitsToBytes_loop (i + length l1) l2 out'.
Proof.
  induction l1 as [|b l1 IH]; intros i l2 out; cbn [app bitsToBytes_loop length].
  - rewrite Nat.add_0_r. reflexivity.
  - destruct (if b then setBit out i else Some out) as [out1|];
      cbn [mbind option_bind]; [|reflexivity].
    rewrite IH. replace (S i + length l1) with (i + S (length l1)) by lia.
    reflexivity.
Qed.

(** Eight bits are the bits of a byte. *)
Lemma eight_bits_of_byte (b0 b1 b2 b3 b4 b5 b6 b7 : bool) :
  exists b, is_byte b ∧ byteBits b = [b0; b1; b2; b3; b4; b5; b6; b7].
Proof.
  exists (bitsValue [b0; b1; b2; b3; b4; b5; b6; b7] 0).
  destruct b0, b1, b2, b3, b4, b5, b6, b7;
    (split; [unfold is_byte; cbn; lia | reflexivity]).
Qed.

Lemma bits_of_bytes m : forall l,
  length l = 8 * m -> exists B, Forall is_byte B ∧ bytesToBits B = l.
Proof.
  induction m as [|m IH]; intros l Hlen.
  - destruct l; [|discriminate]. exists []. split; [constructor | reflexivity].
  - destruct l as [|b0 [|b1 [|b2 [|b3 [|b4 [|b5 [|b6 [|b7 l]]]]]]]];
      try (cbn in Hlen; lia).
    destruct (IH l) as (B & HB & Hl); [cbn in Hlen; lia|].
    destruct (eight_bits_of_byte b0 b1 b2 b3 b4 b5 b6 b7) as (b & Hb & Hbits).
    exists (b :: B). split; [constructor; assumption|].
    change (bytesToBits (b :: B)) with (byteBits b ++ bytesToBits B).
    rewrite Hbits, Hl. reflexivity.
Qed.

Lemma pack_unpacked B : Forall is_byte B -> bitsToBytes (bytesToBits B) = Some B.
Proof.
  intros HB. unfold bitsToBytes. rewrite length_bytesToBits.
  replace ((8 * length B + 7) / 8) with (length B)
    by (apply (Nat.div_unique _ 8 _ 7); lia).
  apply (loop_bytesToBits B [] HB).
Qed.

(** Packing returns the bytes whose bits are the given bits, followed by
    zero bits up to the next whole byte. *)
Lemma bitsToBytes_padded bits :
  exists out,
    bitsToBytes bits = Some out
    ∧ Forall is_byte out
    ∧ length out = (length bits + 7) / 8
    ∧ bytesToBits out
      = bits ++ replicate (8 * ((length bits + 7) / 8) - length bits) false.
Proof.
  pose proof (Nat.div_mod_eq (length bits + 7) 8) as Hdm.
  pose proof (Nat.mod_upper_bound (length bits + 7) 8) as Hlt.
  set (m := (length bits + 7) / 8) in *.
  set (k := 8 * m - length bits).
  destruct (bits_of_bytes m (bits ++ replicate k false)) as (B & HB & Hbits).
  { rewrite length_app, length_replicate. subst k. lia. }
  assert (HlenB : length B = m).
  { apply (f_equal length) in Hbits.
    rewrite length_bytesToBits, length_app, length_replicate in Hbits.
    subst k. lia. }
  exists B. split; [|split; [exact HB | split; [exact HlenB | exact Hbits]]].
  pose proof (pack_unpacked B HB) as Hpack.
  rewrite Hbits in Hpack. unfold bitsToBytes in Hpack |- *.
  rewrite length_app, length_replicate in Hpack.
  replace ((length bits + k + 7) / 8) with m in Hpack
    by (subst k; apply (Nat.div_unique _ 8 _ 7); lia).
  fold m. rewrite loop_app in Hpack.
  destruct (bitsToBytes_loop 0 bits (replicate m 0%Z)) as [out|];
    cbn [mbind option_bind] in Hpack; [|discriminate].
  rewrite loop_false in Hpack. exact Hpack.
Qed.

(** X1. [bitsToBytes] never indexes outside its buffer: for every bit
    sequence of length [n] it returns [ceil (n / 8)] bytes, each in
    0..255. *)
Theorem bitsToBytes_returns_bytes (bits : list bool) :
  exists out,
    bitsToBytes bits = Some out
    ∧ length out = (length bits + 7) / 8
    ∧ Forall is_byte out.
Proof.
  destruct (bitsToBytes_padded bits) as (out & Hout & Hbytes & Hlen & _).
  exists out. repeat split; assumption.
Qed.

(** X2. Unpacking what [bitsToBytes] packed gives the bits back, followed
    by the zero bits that fill the last byte. *)
Theorem bytesToBits_bitsToBytes (bits : list bool) :
  exists out,
    bitsToBytes bits = Some out
    ∧ bytesToBits out
      = bits ++ replicate (8 * ((length bits + 7) / 8) - length bits) false
    ∧ (length bits mod 8 = 0 -> bytesToBits out = bits).
Proof.
  destruct (bitsToBytes_padded bits) as (out & Hout & _ & _ & Hbits).
  exists out. split; [exact Hout|]. split; [exact Hbits|].
  intros Hmod. rewrite Hbits.
  pose proof (Nat.div_mod_eq (length bits) 8) as Hdm.
  replace ((length bits + 7) / 8) with (length bits / 8)
    by (apply (Nat.div_unique _ 8 _ 7); lia).
  replace (8 * (length bits / 8) - length bits) with 0 by lia.
  apply app_nil_r.
Qed.

Lemma bytesToBits_bitsToBytes_witness :
  length [true; false; true; false; false; true; false; true] mod 8 = 0
  ∧ exists out,
      bitsToBytes [true; false; true; false; false; true; false; true]
      = Some out
      ∧ bytesToBits out
        = [true; false; true; false; false; true; false; true].
Proof.
  assert (H : length [true; false; true; false; false; true; false; true]
              mod 8 = 0) by reflexivity.
  split; [exact H|].
  destruct (bytesToBits_bitsToBytes
              [true; false; true; false; false; true; false; true])
    as (out & Hout & _ & Hbits).
  exists out. split; [exact Hout | exact (Hbits H)].
Defined.

Lemma bitsValue_byteBits_check :
  forallb (fun n => (bitsValue (byteBits (Z.of_nat n)) 0 =? Z.of_nat n)%Z)
          (seq 0 256) = true.
Proof. vm_compute. reflexivity. Qed.

(** X3. The eight bits [bytesToBits] makes of a byte, read by [bitsToInt],
    are the byte again. *)
Theorem bitsToInt_byteBits (b : Z) : is_byte b -> bitsToInt (byteBits b) = b.
Proof.
  intros [Hlo Hhi].
  destruct (bitsToInt_value (byteBits b)) as [-> _];
    [rewrite length_byteBits; lia|].
  pose proof bitsValue_byteBits_check as Hall.
  rewrite forallb_forall in Hall. specialize (Hall (Z.to_nat b)).
  rewrite Z2Nat.id in Hall by assumption.
  apply Z.eqb_eq, Hall, in_seq. lia.
Qed.

Lemma bitsToInt_byteBits_witness :
  is_byte 165 ∧ bitsToInt (byteBits 165) = 165%Z.
Proof.
  assert (H : is_byte 165) by (unfold is_byte; lia).
  split; [exact H | exact (bitsToInt_byteBits 165 H)].
Defined.

End CodecProperties.

(* ===================================================================== *)
(** * Further properties of the mnemonic engine *)
(* ===================================================================== *)

Section EngineProperties.

Local Open Scope nat_scope.

(** X4. [checksumBits] panics exactly when [len/32] exceeds the 256 bits
    of the hash, that is from 8224 bits on; otherwise it returns [len/32]
    bits, none at all below 32 bits. *)
Theorem checksumBits_panics_iff (entropyBits : list bool) :
  (checksumBits entropyBits = None <-> 256 < length entropyBits / 32)
  ∧ forall csBits,
      checksumBits entropyBits = Some csBits ->
      length csBits = length entropyBits / 32.
Proof.
  destruct (le_lt_dec (length entropyBits / 32) 256) as [Hle|Hgt].
  - destruct (checksumBits_defined entropyBits Hle) as (entropy & _ & Hcs & Hlen).
    split.
    + split; [rewrite Hcs; discriminate | lia].
    + intros csBits Hsome. rewrite Hcs in Hsome.
      apply (inj Some) in Hsome. rewrite <- Hsome. exact Hlen.
  - rewrite (checksumBits_panics entropyBits Hgt). split.
    + split; [intros _; exact Hgt | reflexivity].
    + discriminate.
Qed.

Lemma checksumBits_panics_iff_witness :
  checksumBits (replicate 40 true) = Some [false]
  ∧ length [false] = length (replicate 40 true) / 32.
Proof.
  assert (H : checksumBits (replicate 40 true) = Some [false])
    by (vm_compute; reflexivity).
  split; [exact H|].
  exact (proj2 (checksumBits_panics_iff (replicate 40 true)) _ H).
Defined.

Lemma group11_app_l bits1 bits2 i :
  (i + 1) * 11 <= length bits1 -> group11 (bits1 ++ bits2) i = group11 bits1 i.
Proof.
  intros Hi. unfold group11. rewrite drop_app_le by lia.
  apply take_app_le. rewrite length_drop. lia.
Qed.

Lemma group11_app_r bits1 bits2 k j :
  length bits1 = 11 * k -> group11 (bits1 ++ bits2) (k + j) = group11 bits2 j.
Proof.
  intros Hk. unfold group11. rewrite drop_app_ge by lia.
  repeat f_equal. lia.
Qed.

(** X5. Words are made group by group: when the first part ends on a
    group boundary, the words of a concatenation are the words of the first
    part followed by the words of the second. *)
Theorem mnemonicWords_app
    (bits1 bits2 : list bool) (wordList : list gostring) :
  length wordList = 2048 ->
  length bits1 mod 11 = 0 ->
  exists words1 words2,
    mnemonicWords bits1 wordList = Some words1
    ∧ mnemonicWords bits2 wordList = Some words2
    ∧ mnemonicWords (bits1 ++ bits2) wordList = Some (words1 ++ words2).
Proof.
  intros Hwl Hmod.
  pose proof (Nat.div_mod_eq (length bits1) 11) as Hdm.
  set (k := length bits1 / 11) in *.
  assert (Hk : length bits1 = 11 * k) by lia.
  do 2 eexists. rewrite !mnemonicWords_total by exact Hwl.
  split; [reflexivity|]. split; [reflexivity|]. f_equal.
  rewrite length_app.
  replace ((length bits1 + length bits2) / 11) with (k + length bits2 / 11).
  2:{ rewrite Hk, Nat.mul_comm, Nat.div_add_l by lia. reflexivity. }
  fold k. rewrite seq_app, map_app. f_equal.
  - apply map_ext_in. intros i Hi. apply in_seq in Hi.
    unfold wordAt. rewrite group11_app_l by lia. reflexivity.
  - cbn [Nat.add]. rewrite <- (Nat.add_0_r k) at 1.
    rewrite <- fmap_add_seq. change (fmap ?f ?l) with (map f l).
    rewrite map_map. apply map_ext. intros j.
    unfold wordAt. rewrite (group11_app_r bits1 bits2 k j Hk). reflexivity.
Qed.

Lemma mnemonicWords_app_witness :
  (length sampleWordList = 2048 ∧ length (replicate 11 true) mod 11 = 0)
  ∧ exists words1 words2,
      mnemonicWords (replicate 11 true) sampleWordList = Some words1
      ∧ mnemonicWords (replicate 12 false) sampleWordList = Some words2
      ∧ mnemonicWords (replicate 11 true ++ replicate 12 false) sampleWordList
        = Some (words1 ++ words2).
Proof.
  assert (H2 : length (replicate 11 true) mod 11 = 0) by reflexivity.
  split; [split; [exact sampleWordList_length | exact H2]|].
  exact (mnemonicWords_app (replicate 11 true) (replicate 12 false)
           sampleWordList sampleWordList_length H2).
Defined.

(** X6. With any word list, [generateMnemonic] panics exactly when the
    value of some complete 11-bit group is not an index of the list; bits
    after the last complete group are never looked up. *)
Theorem generateMnemonic_panics_iff
    (bits : list bool) (wordList : list gostring) :
  generateMnemonic bits wordList = None
  <-> exists i,
        i < length bits / 11
        ∧ (Z.of_nat (length wordList) <= bitsToInt (group11 bits i))%Z.
Proof.
  unfold generateMnemonic.
  assert (Hnone : forall o : option (list gostring),
            (words ← o; Some (Join words (lit " "))) = None <-> o = None)
    by (intros [?|]; cbn; split; congruence).
  rewrite Hnone. unfold mnemonicWords. rewrite mapM_None, Exists_exists.
  split.
  - intros (i & Hi & Hf). apply list_elem_of_In, in_seq in Hi.
    exists i. split; [lia|].
    destruct (group_in_range bits i) as [Hslice Hlen]; [lia|].
    rewrite Hslice in Hf. cbn [mbind option_bind] in Hf.
    pose proof (bitsToInt_11 _ Hlen) as Hidx.
    unfold lookupWord in Hf. rewrite decide_True in Hf by lia.
    apply lookup_ge_None in Hf. lia.
  - intros (i & Hi & Hge). exists i. split.
    + apply list_elem_of_In, in_seq. lia.
    + destruct (group_in_range bits i Hi) as [Hslice Hlen].
      rewrite Hslice. cbn [mbind option_bind].
      pose proof (bitsToInt_11 _ Hlen) as Hidx.
      unfold lookupWord. rewrite decide_True by lia.
      apply lookup_ge_None. lia.
Qed.

(** X7. The passphrase depends on the digits of binary.txt only: two
    files with the same '0' and '1' characters in the same order, however
    they are spaced, broken into lines or commented, give the same
    outcome. *)
Theorem passphrase_ignores_layout
    (fs1 fs2 : gmap string file) (content1 content2 : gostring)
    (wordList : list gostring) :
  fs1 !! "binary.txt"%string = Some (Data content1) ->
  fs2 !! "binary.txt"%string = Some (Data content2) ->
  linesFit content1 ->
  linesFit content2 ->
  fileBits content1 = fileBits content2 ->
  generatePassphraseFromBinary fs1 wordList
  = generatePassphraseFromBinary fs2 wordList.
Proof.
  intros H1 H2 Hfit1 Hfit2 Hbits. unfold generatePassphraseFromBinary.
  rewrite !decide_False by (rewrite ?H1, ?H2; discriminate).
  rewrite (readBinaryFile_fit _ _ _ H1 Hfit1).
  rewrite (readBinaryFile_fit _ _ _ H2 Hfit2).
  rewrite Hbits. reflexivity.
Qed.

Lemma passphrase_ignores_layout_witness :
  (sampleStore !! "binary.txt"%string = Some (Data sampleContent)
   ∧ compactStore !! "binary.txt"%string = Some (Data compactContent)
   ∧ linesFit sampleContent
   ∧ linesFit compactContent
   ∧ fileBits sampleContent = fileBits compactContent)
  ∧ generatePassphraseFromBinary sampleStore sampleWordList
    = generatePassphraseFromBinary compactStore sampleWordList.
Proof.
  assert (H1 : sampleStore !! "binary.txt"%string = Some (Data sampleContent))
    by reflexivity.
  assert (H2 : compactStore !! "binary.txt"%string
               = Some (Data compactContent)) by reflexivity.
  assert (H4 : linesFit compactContent)
    by (unfold linesFit; cbn; repeat constructor).
  assert (H5 : fileBits sampleContent = fileBits compactContent)
    by reflexivity.
  split; [repeat split; solve [assumption | exact sampleStore_linesFit]|].
  exact (passphrase_ignores_layout _ _ _ _ sampleWordList
           H1 H2 sampleStore_linesFit H4 H5).
Defined.

End EngineProperties.

(* ===================================================================== *)
(** * Writing binary.txt and reading it back *)
(* ===================================================================== *)

Section WriteRead.

Local Open Scope nat_scope.

Lemma succ_mod11 i :
  S i mod 11 = if S (i mod 11) =? 11 then 0 else S (i mod 11).
Proof.
  pose proof (Nat.div_mod_eq i 11) as Hi.
  pose proof (Nat.mod_upper_bound i 11) as Hlt.
  destruct (Nat.eqb_spec (S (i mod 11)) 11) as [He|Hne]; symmetry.
  - apply (Nat.mod_unique _ 11 (S (i / 11))); lia.
  - apply (Nat.mod_unique _ 11 (i / 11)); lia.
Qed.

Lemma splitLines_cons c data :
  Ascii.eqb c "010" = false ->
  splitLines (c :: data)
  = match splitLines data with
    | [] => [[c]]
    | line :: lines => (c :: line) :: lines
    end.
Proof. intros Hc. cbn [splitLines]. rewrite Hc. reflexivity. Qed.

Lemma splitLines_newline data :
  splitLines ("010"%char :: data) = [] :: splitLines data.
Proof. reflexivity. Qed.

Lemma bitChar_no_newline b : Ascii.eqb (bitChar b) "010" = false.
Proof. destruct b; reflexivity. Qed.

(** The line being written holds [12 * groupCount + i mod 11] characters
    already; no line grows beyond 72. *)
Lemma writeBits_lines bits : forall i groupCount,
  groupCount < 6 ->
  Forall (fun line => length line <= 72) (splitLines (writeBits i groupCount bits))
  ∧ length (hd [] (splitLines (writeBits i groupCount bits)))
    + 12 * groupCount + i mod 11 <= 72.
Proof.
  induction bits as [|b bits IH]; intros i gc Hgc;
    pose proof (Nat.mod_upper_bound i 11) as Hi; cbn [writeBits].
  - destruct (gc =? 0).
    + change (splitLines []) with ([] : list gostring). cbn [hd length].
      split; [constructor | lia].
    + change (splitLines ["010"%char]) with [[] : gostring]. cbn [hd length].
      split; [constructor; [cbn; lia | constructor] | lia].
  - rewrite Nat.add_1_r, succ_mod11.
    destruct (Nat.eqb_spec (S (i mod 11)) 11) as [Hfull|Hpart];
      [change (0 =? 0) with true
      |change (S (i mod 11) =? 0) with false]; cbv iota.
    + destruct (Nat.eqb_spec (S gc) 6) as [Hsix|Hless]; cbn [app].
      * destruct (IH (S i) 0) as [Hall _]; [lia|].
        rewrite splitLines_cons by apply bitChar_no_newline.
        rewrite splitLines_cons by reflexivity.
        rewrite splitLines_newline. cbn [hd length].
        split; [constructor; [cbn; lia | exact Hall] | lia].
      * destruct (IH (S i) (S gc)) as [Hall Hhd]; [lia|].
        rewrite succ_mod11 in Hhd.
        destruct (Nat.eqb_spec (S (i mod 11)) 11) as [_|]; [|lia].
        rewrite splitLines_cons by apply bitChar_no_newline.
        rewrite splitLines_cons by reflexivity.
        destruct (splitLines (writeBits (S i) (S gc) bits)) as [|line lines];
          cbn [hd length] in *.
        -- split; [repeat constructor; cbn; lia | lia].
        -- apply Forall_cons in Hall as [Hline Hlines].
           split; [constructor; [cbn; lia | exact Hlines] | lia].
    + destruct (Nat.eqb_spec gc 6) as [|_]; [lia|]. cbn [app].
      destruct (IH (S i) gc Hgc) as [Hall Hhd].
      rewrite succ_mod11 in Hhd.
      destruct (Nat.eqb_spec (S (i mod 11)) 11) as [|_]; [lia|].
      rewrite splitLines_cons by apply bitChar_no_newline.
      destruct (splitLines (writeBits (S i) gc bits)) as [|line lines];
        cbn [hd length] in *.
      * split; [repeat constructor; cbn; lia | lia].
      * apply Forall_cons in Hall as [Hline Hlines].
        split; [constructor; [cbn; lia | exact Hlines] | lia].
Qed.

(** X8. Whatever the entropy, no line of the file [writeBinaryFile] writes
    is longer than 72 characters (six groups of eleven digits and a
    space). *)
Theorem written_lines_short (bits : list bool) :
  Forall (fun line => length line <= 72) (splitLines (writeBits 0 0 bits)).
Proof. apply (writeBits_lines bits 0 0). lia. Qed.

Lemma written_linesFit bits : linesFit (writeBits 0 0 bits).
Proof.
  unfold linesFit. eapply Forall_impl; [apply (writeBits_lines bits 0 0); lia|].
  cbn. intros line Hline. unfold MaxScanTokenSize. lia.
Qed.

Lemma written_fileBits bits : fileBits (writeBits 0 0 bits) = bits.
Proof.
  assert (H : writeBits 0 0 bits = layoutWritten bits)
    by apply (writeBits_layout _ 0 bits eq_refl).
  rewrite H. apply fileBits_layoutWritten.
Qed.

(** X9. What [writeBinaryFile] writes, [readBinaryFile] reads back: after
    a write that can create the file, reading it returns the bits of the
    entropy without an error, and packing them returns the entropy. *)
Theorem write_then_read
    (filename : string) (entropy : list Z) (fs : gmap string file) :
  fs !! filename ≠ Some Denied ->
  Forall is_byte entropy ->
  (writeBinaryFile filename entropy fs).2 = None
  ∧ readBinaryFile filename (writeBinaryFile filename entropy fs).1
    = (bytesToBits entropy, None)
  ∧ bitsToBytes (bytesToBits entropy) = Some entropy.
Proof.
  intros Hfile Hbytes.
  assert (Hw : writeBinaryFile filename entropy fs
               = (<[filename := Data (writeBits 0 0 (bytesToBits entropy))]> fs,
                  None)).
  { unfold writeBinaryFile.
    destruct (fs !! filename) as [[content|]|]; [reflexivity| |reflexivity].
    contradiction. }
  rewrite Hw. cbn [fst snd]. split; [reflexivity|].
  split; [|apply pack_unpacked; exact Hbytes].
  rewrite <- (written_fileBits (bytesToBits entropy)) at 2.
  apply readBinaryFile_fit; [apply lookup_insert_eq | apply written_linesFit].
Qed.

Lemma write_then_read_witness :
  ((∅ : gmap string file) !! "binary.txt"%string ≠ Some Denied
   ∧ Forall is_byte [165; 0; 255]%Z)
  ∧ readBinaryFile "binary.txt"
      (writeBinaryFile "binary.txt" [165; 0; 255]%Z ∅).1
    = (bytesToBits [165; 0; 255]%Z, None).
Proof.
  assert (H1 : (∅ : gmap string file) !! "binary.txt"%string ≠ Some Denied)
    by discriminate.
  assert (H2 : Forall is_byte [165; 0; 255]%Z)
    by (repeat constructor; unfold is_byte; lia).
  split; [split; assumption|].
  exact (proj1 (proj2 (write_then_read "binary.txt" _ ∅ H1 H2))).
Defined.

End WriteRead.

(* ===================================================================== *)
(** * Further properties of the inspection *)
(* ===================================================================== *)

Section InspectProperties.

Local Open Scope nat_scope.

Lemma showWordInfo_returns (input : gostring) (wordList : list gostring) :
  2048 <= length wordList ->
  exists r, showWordInfo input wordList = Some r ∧ r ≠ ErrOutOfRange.
Proof.
  intros Hwl. unfold showWordInfo.
  destruct (isBinary (TrimSpace (ToLower input))); cbv zeta.
  - set (padded := if decide (length (TrimSpace (ToLower input)) < 11)
                   then Sprintf_011s (TrimSpace (ToLower input))
                   else TrimSpace (ToLower input)).
    destruct (decide (length padded ≠ 11)) as [Hne|Heq].
    + eexists. split; [reflexivity | discriminate].
    + assert (Hlen : length padded = 11) by lia.
      pose proof (binaryToInt_11 padded Hlen) as Hidx.
      rewrite decide_False by lia.
      unfold lookupWord. rewrite decide_True by lia.
      destruct (lookup_lt_is_Some_2 wordList (Z.to_nat (binaryToInt padded)))
        as [word Hword]; [lia|].
      rewrite Hword. eexists. split; [reflexivity | discriminate].
  - destruct (findWord 0 wordList (TrimSpace (ToLower input)));
      eexists; (split; [reflexivity | discriminate]).
Qed.

(** X10. With at least 2048 words [showWordInfo] never panics, and the
    range error after the length test is never printed: eleven binary
    digits are always an index below 2048. *)
Theorem showWordInfo_total (input : gostring) (wordList : list gostring) :
  2048 <= length wordList ->
  exists r, showWordInfo input wordList = Some r ∧ r ≠ ErrOutOfRange.
Proof. apply showWordInfo_returns. Qed.

Lemma showWordInfo_total_witness :
  2048 <= length sampleWordList
  ∧ exists r, showWordInfo (lit "11111111111") sampleWordList = Some r
              ∧ r ≠ ErrOutOfRange.
Proof.
  assert (H : 2048 <= length sampleWordList)
    by (rewrite sampleWordList_length; lia).
  split; [exact H | exact (showWordInfo_total _ sampleWordList H)].
Defined.

Lemma lowerByte_facts c :
  lowerByte (lowerByte c) = lowerByte c ∧ isSpace (lowerByte c) = isSpace c.
Proof. destruct c as [[] [] [] [] [] [] [] []]; split; reflexivity. Qed.

Lemma ToLower_trimLeft s : ToLower (trimLeft s) = trimLeft (ToLower s).
Proof.
  induction s as [|c s IH]; [reflexivity|].
  unfold ToLower in *. cbn [map trimLeft].
  rewrite (proj2 (lowerByte_facts c)).
  destruct (isSpace c); [exact IH | reflexivity].
Qed.

Lemma ToLower_TrimSpace s : ToLower (TrimSpace s) = TrimSpace (ToLower s).
Proof.
  unfold TrimSpace. unfold ToLower at 1. rewrite map_rev.
  fold (ToLower (trimLeft (rev (trimLeft s)))).
  rewrite ToLower_trimLeft. unfold ToLower at 1. rewrite map_rev.
  fold (ToLower (trimLeft s)). rewrite ToLower_trimLeft. reflexivity.
Qed.

Lemma ToLower_idempotent s : ToLower (ToLower s) = ToLower s.
Proof.
  unfold ToLower. rewrite map_map. apply map_ext.
  intros c. apply lowerByte_facts.
Qed.

Lemma trimLeft_noLeadingSpace s : noLeadingSpace (trimLeft s).
Proof.
  induction s as [|c s IH]; [exact I|]. cbn [trimLeft].
  destruct (isSpace c) eqn:Hc; [exact IH | exact Hc].
Qed.

Lemma trimLeft_fixed s : noLeadingSpace s -> trimLeft s = s.
Proof.
  destruct s as [|c s]; [reflexivity|]. cbn [noLeadingSpace trimLeft].
  intros ->. reflexivity.
Qed.

Lemma trimLeft_suffix s : exists front, s = front ++ trimLeft s.
Proof.
  induction s as [|c s [front IH]]; [exists []; reflexivity|].
  cbn [trimLeft]. destruct (isSpace c).
  - exists (c :: front). cbn [app]. rewrite <- IH. reflexivity.
  - exists []. reflexivity.
Qed.

Lemma trimLeft_keeps_end s :
  noLeadingSpace (rev s) -> noLeadingSpace (rev (trimLeft s)).
Proof.
  intros Hend. destruct (trimLeft_suffix s) as [front Hs].
  destruct (trimLeft s) as [|c t] eqn:Ht using rev_ind; [exact I|].
  clear IHt. rewrite Hs, app_assoc, rev_unit in Hend.
  rewrite rev_unit. exact Hend.
Qed.

Lemma TrimSpace_trimmed s :
  noLeadingSpace (TrimSpace s) ∧ noLeadingSpace (rev (TrimSpace s)).
Proof.
  unfold TrimSpace. rewrite rev_involutive. split.
  - apply trimLeft_keeps_end. rewrite rev_involutive.
    apply trimLeft_noLeadingSpace.
  - apply trimLeft_noLeadingSpace.
Qed.

Lemma TrimSpace_fixed s :
  noLeadingSpace s -> noLeadingSpace (rev s) -> TrimSpace s = s.
Proof.
  intros Hfront Hend. unfold TrimSpace.
  rewrite (trimLeft_fixed s Hfront), (trimLeft_fixed _ Hend).
  apply rev_involutive.
Qed.

Lemma normalise_idempotent s :
  TrimSpace (ToLower (TrimSpace (ToLower s))) = TrimSpace (ToLower s).
Proof.
  rewrite ToLower_TrimSpace, ToLower_idempotent.
  destruct (TrimSpace_trimmed (ToLower s)) as [Hfront Hend].
  apply TrimSpace_fixed; assumption.
Qed.

Lemma asciiText_Forall s :
  asciiText s <-> Forall (fun c => isASCII c = true) s.
Proof.
  unfold asciiText. rewrite forallb_forall, Forall_forall.
  split; intros H c Hc; apply H, list_elem_of_In, Hc.
Qed.

Lemma lowerByte_ascii c : isASCII c = true -> isASCII (lowerByte c) = true.
Proof.
  destruct c as [[] [] [] [] [] [] [] []]; intros Hc;
    first [discriminate Hc | reflexivity].
Qed.

(** Lowering and trimming an ASCII string leaves an ASCII string. *)
Lemma normalise_ascii s : asciiText s -> asciiText (TrimSpace (ToLower s)).
Proof.
  rewrite !asciiText_Forall. intros Hs.
  assert (Hlow : Forall (fun c => isASCII c = true) (ToLower s)).
  { unfold ToLower. apply Forall_forall. intros c Hc.
    apply list_elem_of_In, in_map_iff in Hc as (c0 & <- & Hc0).
    rewrite Forall_forall in Hs. apply lowerByte_ascii, Hs, list_elem_of_In, Hc0. }
  assert (Hcut : forall l, Forall (fun c => isASCII c = true) l ->
                           Forall (fun c => isASCII c = true) (trimLeft l)).
  { intros l Hl. destruct (trimLeft_suffix l) as [front Hfront].
    rewrite Hfront in Hl. apply Forall_app in Hl. tauto. }
  unfold TrimSpace. apply Forall_rev, Hcut, Forall_rev, Hcut, Hlow.
Qed.

(** X11. On an ASCII token the inspection does not see case or
    surrounding white space: lowering and trimming the token beforehand
    leaves an ASCII token and changes nothing of the report, whatever the
    word list. *)
Theorem showWordInfo_normalised (input : gostring) (wordList : list gostring) :
  asciiText input ->
  asciiText (TrimSpace (ToLower input))
  ∧ showWordInfo (TrimSpace (ToLower input)) wordList
    = showWordInfo input wordList.
Proof.
  intros Hascii. split; [apply normalise_ascii, Hascii|].
  unfold showWordInfo. rewrite normalise_idempotent. reflexivity.
Qed.

Lemma showWordInfo_normalised_witness :
  asciiText (lit " Zoo ")
  ∧ showWordInfo (lit "zoo") [lit "art"; lit "zoo"]
    = showWordInfo (lit " Zoo ") [lit "art"; lit "zoo"].
Proof.
  assert (H : asciiText (lit " Zoo ")) by reflexivity.
  split; [exact H|].
  exact (proj2 (showWordInfo_normalised (lit " Zoo ")
                  [lit "art"; lit "zoo"] H)).
Defined.

Lemma findWord_None wordList : forall j word,
  findWord j wordList word = None <-> word ∉ wordList.
Proof.
  induction wordList as [|w rest IH]; intros j word; cbn [findWord].
  - split; [intros _; apply not_elem_of_nil | reflexivity].
  - rewrite not_elem_of_cons. destruct (decide (w = word)) as [->|Hne].
    + split; [discriminate | intros [Hne _]; contradiction].
    + rewrite IH. split; [intros H; split; [congruence | exact H] | tauto].
Qed.

Lemma findWord_first wordList : forall i j word,
  wordList !! i = Some word ->
  (forall k, k < i -> wordList !! k ≠ Some word) ->
  findWord j wordList word = Some (j + i).
Proof.
  induction wordList as [|w rest IH]; intros i j word Hi Hfirst; [discriminate|].
  cbn [findWord]. destruct i as [|i]; cbn in Hi.
  - injection Hi as ->. rewrite decide_True by reflexivity. f_equal. lia.
  - rewrite decide_False.
    + rewrite (IH i (S j) word Hi); [f_equal; lia|].
      intros k Hk. apply (Hfirst (S k)). lia.
    + intros ->. apply (Hfirst 0); [lia | reflexivity].
Qed.

(** X12. For an ASCII token that is not a binary literal, in any word
    list: a word that occurs is reported with the index of its first
    occurrence, and a word that does not occur is reported as neither a
    word nor a binary. *)
Theorem showWordInfo_word (input : gostring) (wordList : list gostring) :
  asciiText input ->
  isBinary (TrimSpace (ToLower input)) = false ->
  (TrimSpace (ToLower input) ∉ wordList ->
   showWordInfo input wordList
   = Some (ErrNeither (TrimSpace (ToLower input))))
  ∧ (forall i,
       wordList !! i = Some (TrimSpace (ToLower input)) ->
       (forall k, k < i -> wordList !! k ≠ Some (TrimSpace (ToLower input))) ->
       showWordInfo input wordList
       = Some (WordInfo (TrimSpace (ToLower input)) i (Sprintf_011b i))).
Proof.
  intros _ Hnb. unfold showWordInfo. rewrite Hnb. split.
  - intros Hout. apply (findWord_None wordList 0) in Hout.
    rewrite Hout. reflexivity.
  - intros i Hi Hfirst.
    rewrite (findWord_first wordList i 0 _ Hi Hfirst). reflexivity.
Qed.

Lemma showWordInfo_word_witness :
  (asciiText (lit " Zoo ") ∧ asciiText (lit "zebra")
   ∧ isBinary (TrimSpace (ToLower (lit " Zoo "))) = false
   ∧ [lit "zoo"; lit "art"; lit "zoo"] !! 0 = Some (lit "zoo")
   ∧ lit "zebra" ∉ [lit "zoo"; lit "art"; lit "zoo"])
  ∧ showWordInfo (lit " Zoo ") [lit "zoo"; lit "art"; lit "zoo"]
    = Some (WordInfo (lit "zoo") 0 (lit "00000000000"))
  ∧ showWordInfo (lit "zebra") [lit "zoo"; lit "art"; lit "zoo"]
    = Some (ErrNeither (lit "zebra")).
Proof.
  assert (H1 : isBinary (TrimSpace (ToLower (lit " Zoo "))) = false)
    by reflexivity.
  assert (H2 : [lit "zoo"; lit "art"; lit "zoo"] !! 0 = Some (lit "zoo"))
    by reflexivity.
  assert (H3 : lit "zebra" ∉ [lit "zoo"; lit "art"; lit "zoo"]).
  { rewrite !not_elem_of_cons. repeat split; try discriminate.
    apply not_elem_of_nil. }
  assert (Ha : asciiText (lit " Zoo ")) by reflexivity.
  assert (Hb : asciiText (lit "zebra")) by reflexivity.
  split; [repeat split; assumption|]. split.
  - apply (proj2 (showWordInfo_word (lit " Zoo ") _ Ha H1) 0 H2).
    intros k Hk. lia.
  - exact (proj1 (showWordInfo_word (lit "zebra") _ Hb eq_refl) H3).
Defined.

End InspectProperties.

(* ===================================================================== *)
(** * The word list *)
(* ===================================================================== *)

Section WordList.

Local Open Scope nat_scope.

Lemma loadWordList_loop lines : forall words,
  fold_left
    (fun words w =>
       let w := TrimSpace w in
       let w := TrimPrefix w BOM in
       match w with
       | [] => words
       | _ :: _ => words ++ [w]
       end)
    lines words
  = words ++ omap cleanLine lines.
Proof.
  induction lines as [|line lines IH]; intros words;
    cbn [fold_left omap list_omap].
  - rewrite app_nil_r. reflexivity.
  - rewrite IH. cbv zeta. unfold cleanLine.
    destruct (TrimPrefix (TrimSpace line) BOM); [reflexivity|].
    rewrite <- app_assoc. reflexivity.
Qed.

(** The loop of [loadWordList] keeps the cleaned lines that are not
    empty. *)
Lemma loadWordList_lines text :
  loadWordList text = omap cleanLine (Split text "010").
Proof. unfold loadWordList. cbv zeta. apply (loadWordList_loop _ []). Qed.

Lemma cleanLine_not_empty line w : cleanLine line = Some w -> w ≠ [].
Proof.
  unfold cleanLine. destruct (TrimPrefix (TrimSpace line) BOM);
    [discriminate|]. intros H. injection H as <-. discriminate.
Qed.

Lemma cleanLines_not_empty lines :
  Forall (fun w => w ≠ []) (omap cleanLine lines)
  ∧ length (omap cleanLine lines) <= length lines.
Proof.
  induction lines as [|line lines [IH1 IH2]]; [split; [constructor | reflexivity]|].
  cbn [omap list_omap length].
  destruct (cleanLine line) as [w|] eqn:Hline; cbn [length].
  - split; [constructor; [exact (cleanLine_not_empty _ _ Hline) | exact IH1]|].
    lia.
  - split; [exact IH1 | lia].
Qed.

(** X13. Whatever the embedded text, [loadWordList] returns no empty word
    and no more words than the text has lines. *)
Theorem loadWordList_no_empty_word (text : gostring) :
  Forall (fun w => w ≠ []) (loadWordList text)
  ∧ length (loadWordList text) <= length (Split text "010").
Proof. rewrite loadWordList_lines. apply cleanLines_not_empty. Qed.

Lemma Split_line line rest :
  Forall (fun c => Ascii.eqb c "010" = false) line ->
  Split (line ++ "010"%char :: rest) "010" = line :: Split rest "010".
Proof.
  induction 1 as [|c line Hc _ IH]; [reflexivity|].
  cbn [app Split]. rewrite Hc, IH. reflexivity.
Qed.

Lemma letter_facts c :
  isLowerLetter c = true ->
  isSpace c = false ∧ Ascii.eqb c "010" = false ∧ Ascii.eqb c "239" = false.
Proof.
  destruct c as [[] [] [] [] [] [] [] []]; intros Hc;
    first [discriminate Hc | repeat split; reflexivity].
Qed.

Lemma cleanWord_ends w :
  cleanWord w ->
  noLeadingSpace w ∧ noLeadingSpace (rev w)
  ∧ HasPrefix w BOM = false
  ∧ Forall (fun c => Ascii.eqb c "010" = false) w.
Proof.
  intros [Hne Hw]. rewrite forallb_forall in Hw.
  assert (Hall : Forall (fun c => isLowerLetter c = true) w)
    by (apply Forall_forall; intros c Hc; apply Hw, list_elem_of_In, Hc).
  split; [|split; [|split]].
  - destruct Hall as [|c w' Hc _]; [exact I|]. apply letter_facts, Hc.
  - apply Forall_rev in Hall.
    destruct Hall as [|c w' Hc _]; [exact I|]. apply letter_facts, Hc.
  - destruct Hall as [|c w' Hc _]; [contradiction|].
    cbn. destruct (letter_facts c Hc) as (_ & _ & ->). reflexivity.
  - eapply Forall_impl; [exact Hall|]. intros c Hc. apply letter_facts, Hc.
Qed.

Lemma trimLeft_spaces spaces s :
  forallb isSpace spaces = true -> trimLeft (spaces ++ s) = trimLeft s.
Proof.
  induction spaces as [|c spaces IH]; [reflexivity|].
  cbn [forallb app trimLeft]. intros [Hc Hrest]%andb_true_iff.
  rewrite Hc. apply IH, Hrest.
Qed.

Lemma TrimSpace_trailing s spaces :
  s ≠ [] -> noLeadingSpace s -> noLeadingSpace (rev s) ->
  forallb isSpace spaces = true ->
  TrimSpace (s ++ spaces) = s.
Proof.
  intros Hne Hfront Hend Hspaces. unfold TrimSpace.
  rewrite (trimLeft_fixed (s ++ spaces))
    by (destruct s; [contradiction | exact Hfront]).
  rewrite rev_app_distr, trimLeft_spaces.
  - rewrite (trimLeft_fixed _ Hend). apply rev_involutive.
  - rewrite forallb_forall in Hspaces |- *. intros c Hc.
    apply Hspaces, in_rev, Hc.
Qed.

(** A clean word, with or without the byte-order mark before it and a
    carriage return after it, is kept as the word. *)
Lemma cleanLine_word (bom crlf : bool) w :
  cleanWord w ->
  cleanLine ((if bom then BOM else []) ++ w
             ++ (if crlf then ["013"%char] else []))
  = Some w.
Proof.
  intros Hw. destruct (cleanWord_ends w Hw) as (Hfront & Hend & Hpre & _).
  destruct Hw as [Hne _].
  assert (Hspaces : forallb isSpace (if crlf then ["013"%char] else []) = true)
    by (destruct crlf; reflexivity).
  unfold cleanLine. rewrite app_assoc. destruct bom.
  - rewrite TrimSpace_trailing; [| | |rewrite rev_app_distr|exact Hspaces].
    + unfold TrimPrefix.
      assert (Hp : HasPrefix (BOM ++ w) BOM = true)
        by (destruct w; reflexivity).
      rewrite Hp. cbn. destruct w; [contradiction | reflexivity].
    + discriminate.
    + reflexivity.
    + destruct (rev w) as [|c t] eqn:Hr; [|exact Hend].
      assert (w = []) by (rewrite <- (rev_involutive w), Hr; reflexivity).
      contradiction.
  - cbn [app]. rewrite TrimSpace_trailing by assumption.
    unfold TrimPrefix. rewrite Hpre. destruct w; [contradiction | reflexivity].
Qed.

Lemma line_no_newline (pre w : gostring) (crlf : bool) :
  Forall (fun c => Ascii.eqb c "010" = false) pre ->
  cleanWord w ->
  Forall (fun c => Ascii.eqb c "010" = false)
         (pre ++ w ++ (if crlf then ["013"%char] else [])).
Proof.
  intros Hpre Hw. apply Forall_app. split; [exact Hpre|].
  apply Forall_app. split; [apply cleanWord_ends, Hw|].
  destruct crlf; repeat constructor.
Qed.

Lemma loadWordList_file_tail (crlf : bool) (words : list gostring) :
  Forall cleanWord words ->
  omap cleanLine
    (Split (flat_map
              (fun w => w ++ (if crlf then ["013"%char] else []) ++ ["010"%char])
              words) "010")
  = words.
Proof.
  induction 1 as [|w words Hw _ IH]; [reflexivity|].
  cbn [flat_map].
  set (rest := flat_map _ words) in *.
  replace ((w ++ (if crlf then ["013"%char] else []) ++ ["010"%char]) ++ rest)
    with (([] ++ w ++ (if crlf then ["013"%char] else []))
          ++ "010"%char :: rest)
    by (cbn [app]; rewrite <- !app_assoc; reflexivity).
  rewrite Split_line by (apply line_no_newline; [constructor | exact Hw]).
  cbn [omap list_omap].
  rewrite (cleanLine_word false crlf w Hw). cbn [mbind option_bind].
  rewrite IH. reflexivity.
Qed.

Lemma loadWordList_wordListFile (bom crlf : bool) (words : list gostring) :
  Forall cleanWord words ->
  loadWordList (wordListFile bom crlf words) = words.
Proof.
  intros Hwords. rewrite loadWordList_lines. unfold wordListFile.
  destruct bom; [|apply loadWordList_file_tail; exact Hwords].
  destruct Hwords as [|w words Hw Hwords]; [reflexivity|].
  cbn [flat_map].
  set (rest := flat_map _ words) in *.
  replace (BOM ++ (w ++ (if crlf then ["013"%char] else []) ++ ["010"%char])
               ++ rest)
    with ((BOM ++ w ++ (if crlf then ["013"%char] else []))
          ++ "010"%char :: rest)
    by (rewrite <- !app_assoc; reflexivity).
  rewrite Split_line by (apply line_no_newline; [repeat constructor | exact Hw]).
  cbn [omap list_omap].
  rewrite (cleanLine_word true crlf w Hw). cbn [mbind option_bind].
  subst rest. rewrite loadWordList_file_tail by exact Hwords. reflexivity.
Qed.

(** X14. A text of clean words, one per line, loads as exactly these
    words: a byte-order mark before the first word is stripped, lines may
    end in a newline or in carriage return and newline, and the empty piece
    after the last newline is skipped. *)
Theorem loadWordList_file (bom crlf : bool) (words : list gostring) :
  Forall cleanWord words ->
  loadWordList (wordListFile bom crlf words) = words.
Proof. apply loadWordList_wordListFile. Qed.

Lemma loadWordList_file_witness :
  Forall cleanWord [lit "abandon"; lit "ability"]
  ∧ loadWordList (wordListFile true true [lit "abandon"; lit "ability"])
    = [lit "abandon"; lit "ability"].
Proof.
  assert (H : Forall cleanWord [lit "abandon"; lit "ability"])
    by (repeat constructor; discriminate).
  split; [exact H | exact (loadWordList_file true true _ H)].
Defined.

Example loadWordList_blank_lines :
  loadWordList
    (BOM ++ lit "abandon " ++ ["013"; "010"; "010"]%char ++ lit "  ability")
  = [lit "abandon"; lit "ability"].
Proof. reflexivity. Qed.

End WordList.

(* ===================================================================== *)
(** * The passphrase as a string *)
(* ===================================================================== *)

Section Passphrase.

Local Open Scope nat_scope.

Lemma Split_piece sep piece rest :
  Forall (fun c => Ascii.eqb c sep = false) piece ->
  Split (piece ++ sep :: rest) sep = piece :: Split rest sep.
Proof.
  induction 1 as [|c piece Hc _ IH]; cbn [app Split].
  - rewrite Ascii.eqb_refl. reflexivity.
  - rewrite Hc, IH. reflexivity.
Qed.

Lemma Split_whole sep piece :
  Forall (fun c => Ascii.eqb c sep = false) piece -> Split piece sep = [piece].
Proof.
  induction 1 as [|c piece Hc _ IH]; cbn [Split]; [reflexivity|].
  rewrite Hc, IH. reflexivity.
Qed.

(** Joining with a separator that no piece holds, and splitting again. *)
Lemma Split_Join sep pieces :
  pieces ≠ [] ->
  Forall (Forall (fun c => Ascii.eqb c sep = false)) pieces ->
  Split (Join pieces [sep]) sep = pieces.
Proof.
  intros Hne Hall. induction Hall as [|piece pieces Hpiece Hrest IH];
    [contradiction|].
  destruct pieces as [|next pieces].
  - cbn [Join]. apply Split_whole, Hpiece.
  - change (Join (piece :: next :: pieces) [sep])
      with (piece ++ sep :: Join (next :: pieces) [sep]).
    rewrite (Split_piece sep piece _ Hpiece), IH by discriminate.
    reflexivity.
Qed.

(** X15. With the 2048 words of lower-case letters and at least eleven
    bits, the passphrase splits at its spaces into exactly the words that
    were looked up, one per complete group. *)
Theorem passphrase_splits_into_words
    (bits : list bool) (wordList : list gostring) :
  wellFormedWordList wordList ->
  11 <= length bits ->
  exists words,
    generateMnemonic bits wordList = Some (Join words (lit " "))
    ∧ Split (Join words (lit " ")) " " = words
    ∧ length words = length bits / 11
    ∧ Forall (fun w => w ∈ wordList) words.
Proof.
  intros (Hwl & _ & Hletters) Hlen.
  exists (map (wordAt wordList bits) (seq 0 (length bits / 11))).
  assert (Hin : Forall (fun w => w ∈ wordList)
                  (map (wordAt wordList bits) (seq 0 (length bits / 11)))).
  { apply Forall_forall. intros w Hw.
    apply list_elem_of_In, in_map_iff in Hw as (i & <- & Hi).
    apply in_seq in Hi. destruct (group_in_range bits i) as [_ Hg]; [lia|].
    pose proof (bitsToInt_11 _ Hg) as Hidx. unfold wordAt.
    destruct (lookup_lt_is_Some_2 wordList
                (Z.to_nat (bitsToInt (group11 bits i)))) as [w Hw]; [lia|].
    rewrite Hw. cbn. apply list_elem_of_lookup. eauto. }
  split; [apply generateMnemonic_total; exact Hwl|].
  split; [|split; [rewrite length_map, length_seq; reflexivity | exact Hin]].
  apply (Split_Join " "%char).
  - assert (Hpos : 0 < length bits / 11)
      by (apply Nat.div_str_pos; lia).
    destruct (length bits / 11); [lia | discriminate].
  - rewrite Forall_forall in Hin, Hletters |- *. intros w Hw.
    specialize (Hletters w (Hin w Hw)). rewrite forallb_forall in Hletters.
    apply Forall_forall. intros c Hc.
    apply list_elem_of_In, Hletters in Hc.
    destruct c as [[] [] [] [] [] [] [] []];
      first [discriminate Hc | reflexivity].
Qed.

Lemma passphrase_splits_into_words_witness :
  (wellFormedWordList sampleWordList ∧ 11 <= length (replicate 22 true))
  ∧ exists words,
      generateMnemonic (replicate 22 true) sampleWordList
      = Some (Join words (lit " "))
      ∧ Split (Join words (lit " ")) " " = words
      ∧ length words = length (replicate 22 true) / 11.
Proof.
  assert (H : 11 <= length (replicate 22 true)) by (cbn; lia).
  split; [split; [exact sampleWordList_wellFormed | exact H]|].
  destruct (passphrase_splits_into_words (replicate 22 true) sampleWordList
              sampleWordList_wellFormed H) as (words & H1 & H2 & H3 & _).
  exists words. auto.
Defined.

End Passphrase.

(* ===================================================================== *)
(** * The command line *)
(* ===================================================================== *)

Section CommandLine.

Local Open Scope nat_scope.

Lemma main_after_help env fl w :
  actionRequested fl ->
  main env fl w
  = let wordList := loadWordList (wordListText env) in
    if bool_decide (length wordList ≠ 2048)
    then (Failed (WordListLength (length wordList)), w)
    else if bool_decide (inspectWord fl ≠ [])
    then
      match showWordInfo (inspectWord fl) wordList with
      | Some r => (Exited, print (Inspected r) w)
      | None => (Crashed, w)
      end
    else
      runBlocks
        [generateBlock env fl; passphraseBlock wordList fl;
         qrBlock env wordList fl] w.
Proof.
  intros [Hhelp Hsome]. unfold main. rewrite Hhelp.
  assert (Hfirst : negb (genBinary fl) && negb (useBinary fl)
                   && negb (showQRCode fl) && negb false
                   && bool_decide (inspectWord fl = []) = false).
  { destruct Hsome as [-> | [-> | [-> | Hi]]];
      rewrite ?andb_false_r; try reflexivity.
    rewrite (bool_decide_eq_false_2 _ Hi). apply andb_false_r. }
  rewrite Hfirst. reflexivity.
Qed.

(** X16. For an embedded text of ASCII (after an optional byte-order
    mark): unless help is shown, a word list that does not have 2048 words
    ends the run at once: the length is reported, nothing is printed and
    no file is written, whatever else was asked for. *)
Theorem main_refuses_bad_word_list
    (env : environment) (fl : flags) (w : world) :
  plainWordListText (wordListText env) ->
  actionRequested fl ->
  length (loadWordList (wordListText env)) ≠ 2048 ->
  main env fl w
  = (Failed (WordListLength (length (loadWordList (wordListText env)))), w).
Proof.
  intros _ Hact Hlen. rewrite (main_after_help env fl w Hact). cbv zeta.
  rewrite (bool_decide_eq_true_2 _ Hlen). reflexivity.
Qed.

(** X17. For an embedded text of ASCII (after an optional byte-order
    mark) that lists 2048 words, and an ASCII token to inspect: the run
    only inspects: the report is printed and the run ends without a panic,
    the file system is left as it was, and -b, -p and -q are not acted
    upon. *)
Theorem main_inspects_only
    (env : environment) (fl : flags) (w : world) :
  plainWordListText (wordListText env) ->
  asciiText (inspectWord fl) ->
  showHelp fl = false ->
  inspectWord fl ≠ [] ->
  length (loadWordList (wordListText env)) = 2048 ->
  exists r,
    showWordInfo (inspectWord fl) (loadWordList (wordListText env)) = Some r
    ∧ main env fl w = (Exited, World (files w) (printed w ++ [Inspected r])).
Proof.
  intros _ _ Hhelp Hword Hlen.
  destruct (showWordInfo_returns (inspectWord fl)
              (loadWordList (wordListText env))) as (r & Hr & _); [lia|].
  exists r. split; [exact Hr|].
  rewrite (main_after_help env fl w) by (split; auto). cbv zeta.
  rewrite bool_decide_eq_false_2 by (intros Hne; contradiction).
  rewrite (bool_decide_eq_true_2 _ Hword), Hr. reflexivity.
Qed.

(** X18. -b followed by -p: with 32 random bytes, an embedded text of
    ASCII (after an optional byte-order mark) that lists 2048 words, and
    a binary.txt that can be created, the run writes the file,
    reads it back and prints the passphrase of these very bytes: 24 words,
    from the 256 bits and the 8 bits of their checksum. *)
Theorem main_generates_then_derives
    (env : environment) (w : world) (entropy : list Z) :
  plainWordListText (wordListText env) ->
  random env = Some entropy ->
  length entropy = 32 ->
  Forall is_byte entropy ->
  length (loadWordList (wordListText env)) = 2048 ->
  files w !! "binary.txt"%string ≠ Some Denied ->
  exists csBits words,
    checksumBits (bytesToBits entropy) = Some csBits
    ∧ length csBits = 8
    ∧ mnemonicWords (bytesToBits entropy ++ csBits)
        (loadWordList (wordListText env)) = Some words
    ∧ length words = 24
    ∧ main env (Flags true true false false []) w
      = (Exited,
         World
           (<["binary.txt"%string :=
                Data (writeBits 0 0 (bytesToBits entropy))]> (files w))
           (printed w
            ++ [Println (lit "binary.txt generated successfully.");
                Println (lit "Passphrase:");
                Println (Join words (lit " "))])).
Proof.
  intros _ Hrand H32 Hbytes Hwl Hfile.
  set (wordList := loadWordList (wordListText env)) in *.
  set (fs := <["binary.txt"%string :=
                 Data (writeBits 0 0 (bytesToBits entropy))]> (files w)).
  assert (Hbits : length (bytesToBits entropy) = 256)
    by (rewrite length_bytesToBits, H32; reflexivity).
  assert (Hread : readBinaryFile "binary.txt" fs = (bytesToBits entropy, None)).
  { rewrite <- (written_fileBits (bytesToBits entropy)) at 1.
    apply readBinaryFile_fit; [apply lookup_insert_eq | apply written_linesFit]. }
  destruct (generatePassphrase_loaded fs wordList _ Hread)
    as (csBits & Hcs & Hcslen & Hrun); [rewrite Hbits; cbn; lia | exact Hwl|].
  exists csBits. eexists.
  split; [exact Hcs|]. split; [rewrite Hcslen, Hbits; reflexivity|].
  split; [apply mnemonicWords_total; exact Hwl|].
  split; [rewrite length_map, length_seq, length_app, Hcslen, Hbits;
          reflexivity|].
  rewrite main_after_help by (split; [reflexivity | left; reflexivity]).
  cbv zeta. fold wordList.
  rewrite bool_decide_eq_false_2 by (intros Hne; contradiction).
  rewrite bool_decide_eq_false_2 by (intros Hne; apply Hne; reflexivity).
  cbn [runBlocks generateBlock genBinary]. rewrite Hrand.
  assert (Hw : writeBinaryFile "binary.txt" entropy (files w) = (fs, None)).
  { unfold writeBinaryFile.
    destruct (files w !! "binary.txt"%string) as [[content|]|];
      [reflexivity| |reflexivity]. contradiction. }
  rewrite Hw. cbn [passphraseBlock useBinary print files printed].
  rewrite Hrun. cbn [qrBlock showQRCode runBlocks print files printed].
  unfold print. cbn [files printed]. rewrite <- !app_assoc. reflexivity.
Qed.

(** X19. For an embedded text of ASCII (after an optional byte-order
    mark) that lists 2048 words: without -b, -p or -q on a missing
    binary.txt ends the run with the not-found message: nothing is printed
    and no file appears. *)
Theorem main_reports_missing_file
    (env : environment) (fl : flags) (w : world) :
  plainWordListText (wordListText env) ->
  showHelp fl = false ->
  inspectWord fl = [] ->
  genBinary fl = false ->
  useBinary fl = true ∨ showQRCode fl = true ->
  length (loadWordList (wordListText env)) = 2048 ->
  files w !! "binary.txt"%string = None ->
  main env fl w = (Failed (DeriveFailure NotFound), w).
Proof.
  intros _ Hhelp Hword Hgen Hderive Hwl Hfile.
  rewrite main_after_help by (split; [exact Hhelp | tauto]). cbv zeta.
  rewrite bool_decide_eq_false_2 by (intros Hne; contradiction).
  rewrite bool_decide_eq_false_2 by (intros Hne; contradiction).
  assert (Hrun : generatePassphraseFromBinary (files w)
                   (loadWordList (wordListText env)) = Fatal NotFound)
    by (unfold generatePassphraseFromBinary;
        rewrite decide_True by exact Hfile; reflexivity).
  cbn [runBlocks]. unfold generateBlock. rewrite Hgen.
  unfold passphraseBlock, qrBlock.
  destruct (useBinary fl); [rewrite Hrun; reflexivity|].
  destruct Hderive as [Hp | ->]; [discriminate|].
  cbv iota. rewrite Hrun. reflexivity.
Qed.

(** X20. The run writes no file but binary.txt, and none at all without
    -b, however it ends. *)
Theorem main_writes_only_binary_txt
    (env : environment) (fl : flags) (w : world) :
  (genBinary fl = false -> files (main env fl w).2 = files w)
  ∧ (forall other,
       other ≠ "binary.txt"%string ->
       files (main env fl w).2 !! other = files w !! other).
Proof.
  assert (Hpass : forall wordList w',
            files (passphraseBlock wordList fl w').2 = files w').
  { intros wordList w'. unfold passphraseBlock.
    destruct (useBinary fl); [|reflexivity].
    destruct (generatePassphraseFromBinary _ _); reflexivity. }
  assert (Hqr : forall wordList w',
            files (qrBlock env wordList fl w').2 = files w').
  { intros wordList w'. unfold qrBlock.
    destruct (showQRCode fl); [|reflexivity].
    destruct (generatePassphraseFromBinary _ _); try reflexivity.
    cbv zeta. destruct (qrcode env a); reflexivity. }
  assert (Htail : forall wordList w',
            files (runBlocks [passphraseBlock wordList fl;
                              qrBlock env wordList fl] w').2 = files w').
  { intros wordList w'. cbn [runBlocks].
    pose proof (Hpass wordList w') as H1.
    destruct (passphraseBlock wordList fl w') as [[st|] w1]; cbn [snd] in *;
      [exact H1|].
    pose proof (Hqr wordList w1) as H2.
    destruct (qrBlock env wordList fl w1) as [[st|] w2]; cbn [snd] in *;
      congruence. }
  assert (Hgen : forall w',
            (genBinary fl = false -> files (generateBlock env fl w').2 = files w')
            ∧ forall other, other ≠ "binary.txt"%string ->
                files (generateBlock env fl w').2 !! other = files w' !! other).
  { intros w'. unfold generateBlock. destruct (genBinary fl).
    - split; [discriminate|]. intros other Hother.
      destruct (random env) as [entropy|]; [|reflexivity].
      unfold writeBinaryFile.
      destruct (files w' !! "binary.txt"%string) as [[content|]|];
        cbn [snd files print]; rewrite ?lookup_insert_ne by congruence;
        reflexivity.
    - split; reflexivity. }
  assert (Hall : forall wordList,
            (genBinary fl = false ->
             files (runBlocks [generateBlock env fl; passphraseBlock wordList fl;
                               qrBlock env wordList fl] w).2 = files w)
            ∧ forall other, other ≠ "binary.txt"%string ->
                files (runBlocks [generateBlock env fl;
                                  passphraseBlock wordList fl;
                                  qrBlock env wordList fl] w).2 !! other
                = files w !! other).
  { intros wordList. destruct (Hgen w) as [Hg1 Hg2].
    change (runBlocks (?b :: ?rest) w)
      with (match b w with
            | (Some st, w') => (st, w')
            | (None, w') => runBlocks rest w'
            end).
    destruct (generateBlock env fl w) as [[st|] w1]; cbn [snd] in *.
    - split; assumption.
    - rewrite Htail. split; assumption. }
  unfold main.
  destruct (negb (genBinary fl) && negb (useBinary fl) && negb (showQRCode fl)
            && negb (showHelp fl) && bool_decide (inspectWord fl = []));
    [split; reflexivity|].
  destruct (showHelp fl); [split; reflexivity|]. cbv zeta.
  destruct (bool_decide (length (loadWordList (wordListText env)) ≠ 2048));
    [split; reflexivity|].
  destruct (bool_decide (inspectWord fl ≠ [])); [|apply Hall].
  destruct (showWordInfo _ _); split; reflexivity.
Qed.

Lemma sampleWordList_clean : Forall cleanWord sampleWordList.
Proof.
  unfold sampleWordList. apply Forall_forall. intros w Hw.
  apply list_elem_of_In, in_map_iff in Hw as (i & <- & Hi).
  apply in_seq in Hi.
  destruct (sampleWord_spells i) as [Hletters _]; [lia|].
  split; [|exact Hletters].
  destruct (Sprintf_011b_digits i) as (_ & Hlen & _); [lia|].
  unfold sampleWord. intros Hnil. apply (f_equal length) in Hnil.
  rewrite length_map, Hlen in Hnil. discriminate.
Qed.

Lemma sampleEnvironment_words :
  loadWordList (wordListText sampleEnvironment) = sampleWordList.
Proof. apply loadWordList_wordListFile, sampleWordList_clean. Qed.

Lemma letter_ascii c : isLowerLetter c = true -> isASCII c = true.
Proof.
  destruct c as [[] [] [] [] [] [] [] []]; intros Hc;
    first [discriminate Hc | reflexivity].
Qed.

Lemma sampleEnvironment_plain :
  plainWordListText (wordListText sampleEnvironment).
Proof.
  unfold plainWordListText, sampleEnvironment, wordListFile.
  cbn [wordListText].
  set (body := flat_map _ sampleWordList).
  assert (Hcut : TrimPrefix (BOM ++ body) BOM = body)
    by (unfold TrimPrefix; destruct body; reflexivity).
  rewrite Hcut. subst body. unfold asciiText. apply forallb_forall.
  intros c Hc. apply in_flat_map in Hc as (w & Hw & Hc).
  apply in_app_or in Hc as [Hc | Hc].
  - pose proof sampleWordList_clean as Hclean.
    rewrite Forall_forall in Hclean.
    destruct (Hclean w) as [_ Hletters]; [apply list_elem_of_In, Hw|].
    rewrite forallb_forall in Hletters. apply letter_ascii, Hletters, Hc.
  - cbn in Hc. destruct Hc as [<- | []]. reflexivity.
Qed.

Lemma oneWordEnvironment_plain :
  plainWordListText (wordListText oneWordEnvironment).
Proof. reflexivity. Qed.

Lemma sampleEnvironment_length :
  length (loadWordList (wordListText sampleEnvironment)) = 2048.
Proof. rewrite sampleEnvironment_words. apply sampleWordList_length. Qed.

Lemma main_refuses_bad_word_list_witness :
  (plainWordListText (wordListText oneWordEnvironment)
   ∧ actionRequested (Flags true true false false [])
   ∧ length (loadWordList (wordListText oneWordEnvironment)) ≠ 2048)
  ∧ main oneWordEnvironment (Flags true true false false []) emptyWorld
    = (Failed (WordListLength 1), emptyWorld).
Proof.
  assert (H1 : actionRequested (Flags true true false false []))
    by (split; [reflexivity | left; reflexivity]).
  assert (Hl : loadWordList (wordListText oneWordEnvironment)
               = [lit "abandon"]) by reflexivity.
  assert (H2 : length (loadWordList (wordListText oneWordEnvironment)) ≠ 2048)
    by (rewrite Hl; cbn [length]; lia).
  split; [split; [exact oneWordEnvironment_plain | split; assumption]|].
  exact (main_refuses_bad_word_list oneWordEnvironment _ emptyWorld
           oneWordEnvironment_plain H1 H2).
Defined.

Lemma main_inspects_only_witness :
  (plainWordListText (wordListText sampleEnvironment)
   ∧ asciiText (inspectWord (Flags true true false true (lit "101")))
   ∧ showHelp (Flags true true false true (lit "101")) = false
   ∧ inspectWord (Flags true true false true (lit "101")) ≠ []
   ∧ length (loadWordList (wordListText sampleEnvironment)) = 2048)
  ∧ exists r,
      main sampleEnvironment (Flags true true false true (lit "101"))
        emptyWorld
      = (Exited, World ∅ [Inspected r]).
Proof.
  assert (H2 : inspectWord (Flags true true false true (lit "101")) ≠ [])
    by discriminate.
  assert (Ha : asciiText (inspectWord (Flags true true false true (lit "101"))))
    by reflexivity.
  split; [split; [exact sampleEnvironment_plain|]; split; [exact Ha|];
          split; [reflexivity | split; [exact H2|]];
          exact sampleEnvironment_length|].
  destruct (main_inspects_only sampleEnvironment
              (Flags true true false true (lit "101")) emptyWorld
              sampleEnvironment_plain Ha
              eq_refl H2 sampleEnvironment_length) as (r & _ & Hmain).
  exists r. exact Hmain.
Defined.

Lemma main_generates_then_derives_witness :
  (plainWordListText (wordListText sampleEnvironment)
   ∧ random sampleEnvironment = Some (replicate 32 0%Z)
   ∧ length (replicate 32 0%Z) = 32
   ∧ Forall is_byte (replicate 32 0%Z)
   ∧ length (loadWordList (wordListText sampleEnvironment)) = 2048
   ∧ files emptyWorld !! "binary.txt"%string ≠ Some Denied)
  ∧ exists words,
      length words = 24
      ∧ main sampleEnvironment (Flags true true false false []) emptyWorld
        = (Exited,
           World
             (<["binary.txt"%string :=
                  Data (writeBits 0 0 (bytesToBits (replicate 32 0%Z)))]> ∅)
             [Println (lit "binary.txt generated successfully.");
              Println (lit "Passphrase:");
              Println (Join words (lit " "))]).
Proof.
  assert (H3 : Forall is_byte (replicate 32 0%Z))
    by (apply Forall_replicate; unfold is_byte; lia).
  assert (H5 : files emptyWorld !! "binary.txt"%string ≠ Some Denied)
    by discriminate.
  split;
    [split; [exact sampleEnvironment_plain|];
     split; [reflexivity | split; [reflexivity | split; [exact H3|]]];
     split; [exact sampleEnvironment_length | exact H5]|].
  destruct (main_generates_then_derives sampleEnvironment emptyWorld
              (replicate 32 0%Z) sampleEnvironment_plain eq_refl eq_refl H3
              sampleEnvironment_length H5)
    as (csBits & words & _ & _ & _ & Hlen & Hmain).
  exists words. split; [exact Hlen | exact Hmain].
Defined.

Lemma main_reports_missing_file_witness :
  (plainWordListText (wordListText sampleEnvironment)
   ∧ showHelp (Flags false true false true []) = false
   ∧ inspectWord (Flags false true false true []) = []
   ∧ genBinary (Flags false true false true []) = false
   ∧ (useBinary (Flags false true false true []) = true
      ∨ showQRCode (Flags false true false true []) = true)
   ∧ length (loadWordList (wordListText sampleEnvironment)) = 2048
   ∧ files emptyWorld !! "binary.txt"%string = None)
  ∧ main sampleEnvironment (Flags false true false true []) emptyWorld
    = (Failed (DeriveFailure NotFound), emptyWorld).
Proof.
  split;
    [split; [exact sampleEnvironment_plain|];
     split; [reflexivity | split; [reflexivity | split; [reflexivity|]]];
     split; [left; reflexivity|];
     split; [exact sampleEnvironment_length | reflexivity]|].
  exact (main_reports_missing_file sampleEnvironment
           (Flags false true false true []) emptyWorld
           sampleEnvironment_plain eq_refl eq_refl eq_refl (or_introl eq_refl)
           sampleEnvironment_length eq_refl).
Defined.

Lemma main_writes_only_binary_txt_witness :
  (genBinary (Flags false true false true []) = false
   ∧ "notes.txt"%string ≠ "binary.txt"%string)
  ∧ files (main sampleEnvironment (Flags false true false true [])
             (World sampleStore [])).2
    = sampleStore
  ∧ files (main sampleEnvironment (Flags true true false true [])
             (World sampleStore [])).2 !! "notes.txt"%string
    = sampleStore !! "notes.txt"%string.
Proof.
  assert (H2 : "notes.txt"%string ≠ "binary.txt"%string) by discriminate.
  split; [split; [reflexivity | exact H2]|]. split.
  - exact (proj1 (main_writes_only_binary_txt sampleEnvironment
                    (Flags false true false true []) (World sampleStore []))
             eq_refl).
  - exact (proj2 (main_writes_only_binary_txt sampleEnvironment
                    (Flags true true false true []) (World sampleStore []))
             _ H2).
Defined.

End CommandLine.
